(** * serve-local.py: a static file server that adds CORS headers

    A shallow embedding of [serve-local.py] and of the part of the Python
    standard library it drives (os, pathlib, sys, socketserver.TCPServer,
    http.server.BaseHTTPRequestHandler), followed by the properties of the
    script.

    The script is effectful: it changes the working directory, probes the
    file system, prints, binds a socket and then blocks in the serve loop.
    It is embedded in a state-and-exception monad over an explicit [world];
    everything the script cannot decide itself (the location of the script,
    the file system, the exceptions raised by the operating system or by
    the user pressing Ctrl+C, the connections that arrive) is read from an
    environment [env]. *)

From Stdlib Require Import List String Ascii ZArith Lia Bool DecimalString.
Import ListNotations.
Open Scope string_scope.
Open Scope list_scope.

(** ** Paths *)

(** [pathlib.Path] values.  [__file__] of the script that is run is an
    absolute path (since Python 3.9, however the script is named on the
    command line), so a path is the list of its components below the
    root. *)
Definition path := list string.

(** [Path.parent] *)
Definition parent (p : path) : path := removelast p.

(** [Path.__truediv__], for a relative one-component right operand *)
Definition joinpath (p : path) (name : string) : path := p ++ [name].

Notation "p // name" := (joinpath p name) (at level 40, left associativity).

(** [str(path)] for an absolute path *)
Definition render (p : path) : string :=
  match p with
  | [] => "/"
  | _ => String.concat "" (map (fun c => ("/" ++ c)%string) p)
  end.

(** ** Exceptions *)

Inductive exn : Type :=
| KeyboardInterrupt
| SystemExit (code : Z)
| OSError (strerror : string)
| OtherException (name : string).

(** The class test of [except KeyboardInterrupt:] *)
Definition is_KeyboardInterrupt (e : exn) : bool :=
  match e with
  | KeyboardInterrupt => true
  | _ => false
  end.

(** ** The request handler *)

(** The attributes of a [BaseHTTPRequestHandler] instance that sending a
    response reads and writes.  [wfile] is the list of the byte strings
    written to the connection, oldest first. *)
Record handler : Type := mkHandler {
  request_version : string;
  protocol_version : string;
  _headers_buffer : list string;
  close_connection : bool;
  wfile : list string
}.

Definition CRLF : string := String (ascii_of_nat 13) (String (ascii_of_nat 10) EmptyString).

(** [str.lower] on ASCII text *)
Definition lower_ascii (c : ascii) : ascii :=
  let n := nat_of_ascii c in
  if (65 <=? n)%nat && (n <=? 90)%nat then ascii_of_nat (n + 32) else c.

Fixpoint lower (s : string) : string :=
  match s with
  | EmptyString => EmptyString
  | String c s' => String (lower_ascii c) (lower s')
  end.

(** [str(code)] / ["%d" % code] *)
Definition str_int (n : Z) : string := NilZero.string_of_int (Z.to_int n).

(** The two kinds of line of a header section, ["%s %d %s\r\n"] and
    ["%s: %s\r\n"]. *)
Definition status_line (version : string) (code : Z) (message : string) : string :=
  (version ++ " " ++ str_int code ++ " " ++ message ++ CRLF)%string.

Definition header_line (keyword value : string) : string :=
  (keyword ++ ": " ++ value ++ CRLF)%string.

Module BaseHTTPRequestHandler.

(** [send_response_only(code, message)]: buffers the status line. *)
Definition send_response_only (code : Z) (message : string) (self : handler) : handler :=
  if String.eqb (request_version self) "HTTP/0.9" then self
  else
    mkHandler (request_version self) (protocol_version self)
      (_headers_buffer self ++ [status_line (protocol_version self) code message])
      (close_connection self) (wfile self).

(** [send_header(keyword, value)]: buffers one header line, and tracks
    a [Connection] header. *)
Definition send_header (keyword value : string) (self : handler) : handler :=
  let buffer :=
    if String.eqb (request_version self) "HTTP/0.9" then _headers_buffer self
    else _headers_buffer self ++ [header_line keyword value] in
  let closing :=
    if String.eqb (lower keyword) "connection" then
      if String.eqb (lower value) "close" then true
      else if String.eqb (lower value) "keep-alive" then false
      else close_connection self
    else close_connection self in
  mkHandler (request_version self) (protocol_version self) buffer closing (wfile self).

(** [flush_headers()]: one write of the joined buffer. *)
Definition flush_headers (self : handler) : handler :=
  mkHandler (request_version self) (protocol_version self) []
    (close_connection self)
    (wfile self ++ [String.concat "" (_headers_buffer self)]).

(** [end_headers()]: the header-finalization step, the blank line that
    ends the header section and the flush. *)
Definition end_headers (self : handler) : handler :=
  if String.eqb (request_version self) "HTTP/0.9" then self
  else
    flush_headers
      (mkHandler (request_version self) (protocol_version self)
         (_headers_buffer self ++ [CRLF]) (close_connection self) (wfile self)).

End BaseHTTPRequestHandler.

(** A handler class, as far as method resolution matters here: the base
    class calls [self.end_headers()], which a subclass may override. *)
Class RequestHandlerClass : Type := {
  end_headers : handler -> handler
}.

(** [http.server.SimpleHTTPRequestHandler] inherits [end_headers]. *)
Definition SimpleHTTPRequestHandler : RequestHandlerClass :=
  {| end_headers := BaseHTTPRequestHandler.end_headers |}.

(** [CORSHTTPRequestHandler.end_headers], the one method the script
    overrides. *)
Definition CORSHTTPRequestHandler_end_headers (self : handler) : handler :=
  let self := BaseHTTPRequestHandler.send_header
                "Access-Control-Allow-Origin" "*" self in
  let self := BaseHTTPRequestHandler.send_header
                "Access-Control-Allow-Methods" "GET, POST, OPTIONS" self in
  let self := BaseHTTPRequestHandler.send_header
                "Access-Control-Allow-Headers" "Content-Type, Authorization" self in
  BaseHTTPRequestHandler.end_headers self.

(** [class CORSHTTPRequestHandler(http.server.SimpleHTTPRequestHandler)] *)
Definition CORSHTTPRequestHandler : RequestHandlerClass :=
  {| end_headers := CORSHTTPRequestHandler_end_headers |}.

(** ** Requests and replies *)

(** A request as it arrives: the request line as read from the
    connection (line end included) and the header lines after it. *)
Record request : Type := mkRequest {
  raw_requestline : string;
  raw_headers : list string
}.

(** *** What [parse_request] makes of the request line

    The inherited handler sends a status line and headers only if
    [self.request_version] is not ["HTTP/0.9"] at the time it replies.
    [parse_request] starts from that value and replaces it by the last
    word of the request line only once the line has three words or more
    and that word has passed all the checks; a request line that is
    rejected before is answered while the value is still ["HTTP/0.9"]. *)

(** [str.isspace] on the characters of a Latin-1 string *)
Definition isspace (c : ascii) : bool :=
  let n := nat_of_ascii c in
  ((9 <=? n)%nat && (n <=? 13)%nat) || ((28 <=? n)%nat && (n <=? 32)%nat)
  || (n =? 133)%nat || (n =? 160)%nat.

(** [s.rstrip('\r\n')] *)
Fixpoint rstrip_crlf (s : string) : string :=
  match s with
  | EmptyString => EmptyString
  | String c s' =>
      match rstrip_crlf s' with
      | EmptyString =>
          if ((nat_of_ascii c =? 13)%nat || (nat_of_ascii c =? 10)%nat)%bool
          then EmptyString else String c EmptyString
      | rest => String c rest
      end
  end.

(** [s.split()]: the words between runs of white space; [word] is the
    word being read. *)
Fixpoint split_words (word : string) (s : string) : list string :=
  match s with
  | EmptyString =>
      match word with
      | EmptyString => []
      | _ => [word]
      end
  | String c s' =>
      if isspace c then
        match word with
        | EmptyString => split_words EmptyString s'
        | _ => word :: split_words EmptyString s'
        end
      else split_words (word ++ String c EmptyString)%string s'
  end.

Definition str_split (s : string) : list string := split_words EmptyString s.

(** [s.split(sep)]: the pieces between the occurrences of [sep], empty
    ones included; [piece] is the piece being read. *)
Fixpoint split_at (sep : ascii) (piece : string) (s : string) : list string :=
  match s with
  | EmptyString => [piece]
  | String c s' =>
      if Ascii.eqb c sep then piece :: split_at sep EmptyString s'
      else split_at sep (piece ++ String c EmptyString)%string s'
  end.

(** [s.split('/', 1)[1]]: what follows the first slash *)
Fixpoint after_slash (s : string) : option string :=
  match s with
  | EmptyString => None
  | String c s' => if Ascii.eqb c "/" then Some s' else after_slash s'
  end.

Definition is_digit (c : ascii) : bool :=
  ((48 <=? nat_of_ascii c)%nat && (nat_of_ascii c <=? 57)%nat)%bool.

(** The digits of a decimal literal as [int] reads them: single
    underscores are allowed between digits.  Returns the value and the
    number of digits. *)
Fixpoint int_digits (acc : Z) (count : nat) (after_digit : bool) (s : string)
  : option (Z * nat) :=
  match s with
  | EmptyString => if after_digit then Some (acc, count) else None
  | String c s' =>
      if is_digit c then
        int_digits (10 * acc + Z.of_nat (nat_of_ascii c - 48)) (S count) true s'
      else if Ascii.eqb c "_" then
        if after_digit then int_digits acc count false s' else None
      else None
  end.

(** [int(s)] for a string without white space: an optional sign, then
    digits; [None] stands for [ValueError], which is also what more than
    4300 digits give. *)
Definition int_of_str (s : string) : option Z :=
  let unsigned (t : string) :=
    match int_digits 0 0 false t with
    | Some (v, count) => if (count <=? 4300)%nat then Some v else None
    | None => None
    end in
  match s with
  | String "+" t => unsigned t
  | String "-" t => option_map Z.opp (unsigned t)
  | _ => unsigned s
  end.

(** The checks of [parse_request] on the version word, up to the pair
    of numbers; [None] stands for the [ValueError] that is answered with
    status 400. *)
Definition version_number (version : string) : option (Z * Z) :=
  if String.prefix "HTTP/" version then
    match after_slash version with
    | Some base_version_number =>
        match split_at "." EmptyString base_version_number with
        | [major; minor] =>
            match int_of_str major, int_of_str minor with
            | Some a, Some b => Some (a, b)
            | _, _ => None
            end
        | _ => None
        end
    | None => None
    end
  else None.

(** [version_number >= (2, 0)], the comparison of tuples *)
Definition at_least_2_0 (v : Z * Z) : bool :=
  ((2 <? fst v)%Z || ((fst v =? 2)%Z && (0 <=? snd v)%Z))%bool.

(** The value of [self.request_version] when the handler replies to a
    request line: empty for a line of more than 65536 bytes (rejected by
    [handle_one_request] before it is parsed), the version word if
    [parse_request] has accepted it, and ["HTTP/0.9"] otherwise. *)
Definition parsed_request_version (raw : string) : string :=
  if (65536 <? N.of_nat (String.length raw))%N then EmptyString
  else
    let words := str_split (rstrip_crlf raw) in
    if (3 <=? List.length words)%nat then
      let version := last words EmptyString in
      match version_number version with
      | Some v => if at_least_2_0 v then "HTTP/0.9" else version
      | None => "HTTP/0.9"
      end
    else "HTTP/0.9".

(** A word of a request line: not empty, no white space. *)
Fixpoint no_space (s : string) : bool :=
  match s with
  | EmptyString => true
  | String c s' => (negb (isspace c) && no_space s')%bool
  end.

Definition is_word (s : string) : bool :=
  (negb (String.eqb s EmptyString) && no_space s)%bool.

(** The request line [method target version], ended by CR LF. *)
Definition request_line (method target version : string) : string :=
  (method ++ " " ++ target ++ " " ++ version ++ CRLF)%string.

(** What the inherited static-file logic ([do_GET], [do_HEAD],
    [send_error], ...) decides to answer: a status line, its own headers
    and the chunks of the body.  It is not part of the script; the
    environment supplies it (see [static_reply] below). *)
Record reply : Type := mkReply {
  code : Z;
  message : string;
  headers : list (string * string);
  body : list string
}.

(** A fresh handler instance at the time it replies to a request.
    [SimpleHTTPRequestHandler] keeps the class default
    [protocol_version = "HTTP/1.0"]. *)
Definition new_handler (rq : request) : handler :=
  mkHandler (parsed_request_version (raw_requestline rq)) "HTTP/1.0" [] true [].

(** The way the base class emits any reply: status line, headers,
    [self.end_headers()] (resolved in the class of the instance), body. *)
Definition send_reply {cls : RequestHandlerClass} (r : reply) (self : handler) : handler :=
  let self := BaseHTTPRequestHandler.send_response_only (code r) (message r) self in
  let self := fold_left
                (fun h kv => BaseHTTPRequestHandler.send_header (fst kv) (snd kv) h)
                (headers r) self in
  let self := end_headers self in
  mkHandler (request_version self) (protocol_version self) (_headers_buffer self)
    (close_connection self) (wfile self ++ body r).

(** ** The world and the environment *)

Inductive op : Type :=
| Chdir (p : path)                       (* os.chdir(p) *)
| PathExists (p : path)                  (* p.exists() *)
| Print (line : string)                  (* print(line) *)
| Getcwd                                 (* os.getcwd() *)
| Bind (host : string) (port : Z)        (* socketserver.TCPServer((host, port), ...):
                                            server_bind and server_activate *)
| Poll                                   (* one round of the serve loop *)
| Close.                                 (* server_close(): on leaving the with block,
                                            or by the constructor after a failed bind *)

(** One entry of the trace: the operation that was started, and the
    exception it raised, if any. *)
Record event : Type := mkEvent {
  what : op;
  raised : option exn
}.

(** One request that was answered: the directory the handler resolved it
    in, the request, and the bytes written back. *)
Record exchange : Type := mkExchange {
  directory : path;
  asked : request;
  wire : list string
}.

Record world : Type := mkWorld {
  cwd : path;
  clock : nat;
  trace : list event;
  served : list exchange
}.

Record env : Type := mkEnv {
  argv : list string;
  script_file : path;
  launch_cwd : path;
  fs_exists : path -> bool;
  (** the exception, if any, that the operation started at a given tick
      of the clock raises (a failing system call, or Ctrl+C arriving) *)
  fault : nat -> option exn;
  (** the request, if any, that the round of the serve loop at a given
      tick finds *)
  incoming : nat -> option request;
  static_reply : path -> request -> option reply
}.

(** ** The monad *)

Inductive result (A : Type) : Type :=
| Ok (a : A)
| Raise (e : exn)
| Pending.   (* still inside the serve loop when the observation ends *)

Arguments Ok {A} a.
Arguments Raise {A} e.
Arguments Pending {A}.

Definition M (A : Type) : Type := env -> world -> result A * world.

Definition ret {A} (a : A) : M A := fun _ w => (Ok a, w).

Definition bind {A B} (m : M A) (k : A -> M B) : M B :=
  fun en w =>
    match m en w with
    | (Ok a, w') => k a en w'
    | (Raise e, w') => (Raise e, w')
    | (Pending, w') => (Pending, w')
    end.

Definition raise {A} (e : exn) : M A := fun _ w => (Raise e, w).

Definition pending {A} : M A := fun _ w => (Pending, w).

Declare Scope py_scope.
Delimit Scope py_scope with py.
Notation "x <- m ;; k" := (bind m (fun x => k))
  (at level 61, m at next level, right associativity) : py_scope.
Notation "m ;; k" := (bind m (fun _ => k))
  (at level 61, right associativity) : py_scope.
Open Scope py_scope.

(** [try: body except <class>: handler] *)
Definition try_except {A} (body : M A) (catches : exn -> bool) (handler : exn -> M A) : M A :=
  fun en w =>
    match body en w with
    | (Raise e, w') => if catches e then handler e en w' else (Raise e, w')
    | other => other
    end.

Definition log (o : op) (r : option exn) (w : world) : world :=
  mkWorld (cwd w) (clock w) (trace w ++ [mkEvent o r]) (served w).

Definition tick (w : world) : world :=
  mkWorld (cwd w) (S (clock w)) (trace w) (served w).

(** An operation of the standard library that reaches the outside: it
    either raises what the environment has for this tick, or takes
    effect and returns its value. *)
Definition syscall {A} (o : op) (effect : env -> world -> world)
    (value : env -> world -> A) : M A :=
  fun en w =>
    match fault en (clock w) with
    | Some e => (Raise e, tick (log o (Some e) w))
    | None => (Ok (value en w), tick (log o None (effect en w)))
    end.

(** ** os, pathlib, sys, print *)

Definition os_chdir (p : path) : M unit :=
  syscall (Chdir p) (fun _ w => mkWorld p (clock w) (trace w) (served w)) (fun _ _ => tt).

(** [os.getcwd()].  A directory is identified with the path that was
    given to [os.chdir]; symbolic links on the way to it are not
    modelled. *)
Definition os_getcwd : M path :=
  syscall Getcwd (fun _ w => w) (fun _ w => cwd w).

Definition path_exists (p : path) : M bool :=
  syscall (PathExists p) (fun _ w => w) (fun en _ => fs_exists en p).

Definition print (line : string) : M unit :=
  syscall (Print line) (fun _ w => w) (fun _ _ => tt).

Definition sys_exit {A} (status : Z) : M A := raise (SystemExit status).

(** [Path(__file__)] *)
Definition Path_file : M path := fun en w => (Ok (script_file en), w).

(** ** socketserver *)

Record TCPServer : Type := mkTCPServer {
  server_address : string * Z;
  RequestHandler : RequestHandlerClass
}.

(** [socketserver.TCPServer(address, handler_class)]: binds and
    activates the listening socket.  If that raises, the constructor
    closes the socket itself ([except: self.server_close(); raise]). *)
Definition TCPServer_init (address : string * Z) (cls : RequestHandlerClass) : M TCPServer :=
  fun en w =>
    match
      syscall (Bind (fst address) (snd address)) (fun _ w => w)
        (fun _ _ => mkTCPServer address cls) en w
    with
    | (Raise e, w') => (Raise e, log Close None w')
    | other => other
    end.

(** The request of this round, if one arrived, is answered by a fresh
    instance of the server's handler class, which serves from the
    current working directory. *)
Definition answer (httpd : TCPServer) (en : env) (w : world) : world :=
  match incoming en (clock w) with
  | None => w
  | Some rq =>
      let self :=
        match static_reply en (cwd w) rq with
        | None => new_handler rq
        | Some r => send_reply (cls := RequestHandler httpd) r (new_handler rq)
        end in
      mkWorld (cwd w) (clock w) (trace w)
        (served w ++ [mkExchange (cwd w) rq (wfile self)])
  end.

(** One round of the loop of [serve_forever]: wait for a connection and
    handle it.  What the environment raises here is what gets out of the
    round (the library itself swallows the errors of a single request). *)
Definition serve_round (httpd : TCPServer) : M unit :=
  syscall Poll (answer httpd) (fun _ _ => tt).

(** [httpd.serve_forever()].  Nothing in the script ever asks the server
    to shut down, so the loop has no exit of its own; [rounds] bounds
    how many rounds are observed. *)
Fixpoint serve_forever (httpd : TCPServer) (rounds : nat) : M unit :=
  match rounds with
  | O => pending
  | S rounds' => serve_round httpd ;; serve_forever httpd rounds'
  end.

(** [with ctor as x: body]: the server is closed however the body is
    left. *)
Definition with_server {A} (ctor : M TCPServer) (body : TCPServer -> M A) : M A :=
  httpd <- ctor ;;
  fun en w =>
    match body httpd en w with
    | (Pending, w') => (Pending, w')
    | (r, w') => (r, log Close None w')
    end.

(** ** serve-local.py *)

Definition PORT : Z := 8000.
Definition HOST : string := "localhost".

Definition LF : string := String (ascii_of_nat 10) EmptyString.

(** [s * n] *)
Fixpoint str_mul (s : string) (n : nat) : string :=
  match n with
  | O => EmptyString
  | S n' => (s ++ str_mul s n')%string
  end.

(** [main()].  The class statement of the handler has no effect of its
    own; [rounds] is passed on to [serve_forever]. *)
Definition main (rounds : nat) : M unit :=
  file <- Path_file ;;
  let project_dir := parent file in
  os_chdir project_dir ;;
  found <- path_exists (project_dir // "dist") ;;
  (if negb found then
     print "❌ Error: 'dist' directory not found!" ;;
     print "Please run 'npm run build' first to create the production build." ;;
     sys_exit 1
   else ret tt) ;;
  os_chdir (project_dir // "dist") ;;
  with_server (TCPServer_init (HOST, PORT) CORSHTTPRequestHandler) (fun httpd =>
    print ("🚀 Serving Daydream app at http://" ++ HOST ++ ":" ++ str_int PORT)%string ;;
    here <- os_getcwd ;;
    print ("📁 Serving from: " ++ render here)%string ;;
    print "🎬 This avoids CORS issues with Livepeer TV player" ;;
    print "⚠️  Press Ctrl+C to stop the server" ;;
    print (str_mul "-" 50) ;;
    try_except (serve_forever httpd rounds)
      is_KeyboardInterrupt
      (fun _ =>
         print (LF ++ "🛑 Server stopped")%string ;;
         sys_exit 0)).

(** ** Running the script *)

Definition boot (en : env) : world := mkWorld (launch_cwd en) 0 [] [].

(** [if __name__ == "__main__": main()], in a fresh process. *)
Definition run (rounds : nat) (en : env) : result unit * world :=
  main rounds en (boot en).

(** How the process ends, as a shell sees it: an exit status, a
    traceback of an exception nobody caught, or not (yet) at all. *)
Inductive outcome : Type :=
| Exited (status : Z)
| Unhandled (e : exn)
| Running.

Definition ending (r : result unit) : outcome :=
  match r with
  | Ok _ => Exited 0
  | Raise (SystemExit status) => Exited status
  | Raise e => Unhandled e
  | Pending => Running
  end.

Definition ops (w : world) : list op := map what (trace w).

(** The lines that reached standard output. *)
Definition stdout (w : world) : list string :=
  flat_map (fun ev =>
              match what ev, raised ev with
              | Print line, None => [line]
              | _, _ => []
              end) (trace w).

(** ** Vocabulary of the properties *)

(** The three header lines of [CORSHTTPRequestHandler.end_headers], in
    the order in which they are sent. *)
Definition cors_lines : list string :=
  [ header_line "Access-Control-Allow-Origin" "*";
    header_line "Access-Control-Allow-Methods" "GET, POST, OPTIONS";
    header_line "Access-Control-Allow-Headers" "Content-Type, Authorization" ].

(** The header section of a reply as the inherited handler alone would
    buffer it, before the header section is finished. *)
Definition base_lines (r : reply) : list string :=
  status_line "HTTP/1.0" (code r) (message r)
    :: map (fun kv => header_line (fst kv) (snd kv)) (headers r).

(** The build output directory, [Path(__file__).parent / "dist"]. *)
Definition dist_dir (en : env) : path := parent (script_file en) // "dist".

(** An event is the start of operation [o]; it is operation [o] carried
    out without an exception. *)
Definition started (o : op) (ev : event) : Prop := what ev = o.
Definition done (o : op) (ev : event) : Prop := what ev = o /\ raised ev = None.

Definition is_chdir (ev : event) : Prop := exists p, what ev = Chdir p.
Definition is_bind (ev : event) : Prop := exists host port, what ev = Bind host port.
Definition is_check (ev : event) : Prop := exists p, what ev = PathExists p.

(** Every element that satisfies [Q] has an element that satisfies [P]
    somewhere before it. *)
Definition precedes {X : Type} (P Q : X -> Prop) (l : list X) : Prop :=
  forall l1 x l2, l = l1 ++ x :: l2 -> Q x -> List.Exists P l1.

(** The same, by recursion on the list. *)
Fixpoint guarded {X : Type} (P Q : X -> Prop) (l : list X) : Prop :=
  match l with
  | [] => True
  | x :: l' => ~ Q x /\ (P x \/ guarded P Q l')
  end.

(** No operation fails during the first [n] ticks of the clock. *)
Definition quiet_before (n : nat) (en : env) : Prop :=
  forall j, j < n -> fault en j = None.

(** The number of operations [main] starts before it enters
    [serve_forever]: two [chdir], the check, the bind, [getcwd] and five
    [print]. *)
Definition startup_ticks : nat := 10.

(** The world after [n] rounds of the serve loop without an exception. *)
Fixpoint after_rounds (httpd : TCPServer) (en : env) (n : nat) (w : world) : world :=
  match n with
  | O => w
  | S n' => after_rounds httpd en n' (tick (log Poll None (answer httpd en w)))
  end.

(** The operations of a start without incident, in program order, up
    to the point where [serve_forever] is entered. *)
Definition startup_ops (en : env) : list op :=
  [ Chdir (parent (script_file en));
    PathExists (dist_dir en);
    Chdir (dist_dir en);
    Bind HOST PORT;
    Print ("🚀 Serving Daydream app at http://" ++ HOST ++ ":" ++ str_int PORT)%string;
    Getcwd;
    Print ("📁 Serving from: " ++ render (dist_dir en))%string;
    Print "🎬 This avoids CORS issues with Livepeer TV player";
    Print "⚠️  Press Ctrl+C to stop the server";
    Print (str_mul "-" 50) ].

(** The operations of a start that finds no build output. *)
Definition fatal_ops (en : env) : list op :=
  [ Chdir (parent (script_file en));
    PathExists (dist_dir en);
    Print "❌ Error: 'dist' directory not found!";
    Print "Please run 'npm run build' first to create the production build." ].

Definition succeeded (os : list op) : list event :=
  map (fun o => mkEvent o None) os.

(** The working directory once the first [k] operations of the start
    have been carried out. *)
Definition cwd_at (en : env) (k : nat) : path :=
  if (k =? 0)%nat then launch_cwd en
  else if (k <? 3)%nat then parent (script_file en)
  else dist_dir en.

(** The server the script creates, and the world in which it enters
    [serve_forever]. *)
Definition the_server : TCPServer := mkTCPServer (HOST, PORT) CORSHTTPRequestHandler.

Definition listening (en : env) : world :=
  mkWorld (dist_dir en) startup_ticks (succeeded (startup_ops en)) [].

(** The last line the script prints on Ctrl+C. *)
Definition stopped_line : string := (LF ++ "🛑 Server stopped")%string.

(** The same environment, with other command-line arguments. *)
Definition with_argv (args : list string) (en : env) : env :=
  mkEnv args (script_file en) (launch_cwd en) (fs_exists en)
    (fault en) (incoming en) (static_reply en).

(** A computation that does not depend on the command-line arguments. *)
Definition argv_blind {A : Type} (m : M A) : Prop :=
  forall args en w, m (with_argv args en) w = m en w.

(** The bytes written back in an exchange: unless the handler replies
    with [request_version] still at ["HTTP/0.9"] (the answer is then the
    body alone), the header section of the inherited handler with the
    three lines placed before the blank line that ends it, then the
    body. *)
Definition answered_with_cors (en : env) (x : exchange) : Prop :=
  forall r,
    static_reply en (directory x) (asked x) = Some r ->
    wire x
    = if String.eqb (parsed_request_version (raw_requestline (asked x))) "HTTP/0.9"
      then body r
      else String.concat "" (base_lines r ++ cors_lines ++ [CRLF]) :: body r.

(** The world when round [k] of the serve loop raises [e]. *)
Definition broken (en : env) (k : nat) (e : exn) : world :=
  tick (log Poll (Some e) (after_rounds the_server en k (listening en))).

(** The ways in which an observation of the script can end, each with
    what the environment did to cause it and the world it leaves. *)
Inductive ends_as (rounds : nat) (en : env) : result unit * world -> Prop :=
| early_fault k e :
    k < 2 -> quiet_before k en -> fault en k = Some e ->
    ends_as rounds en
      (Raise e,
       mkWorld (cwd_at en k) (S k)
         (succeeded (firstn k (startup_ops en))
            ++ [mkEvent (nth k (startup_ops en) Close) (Some e)]) [])
| fatal_fault k e :
    2 <= k < 4 -> quiet_before k en -> fault en k = Some e ->
    fs_exists en (dist_dir en) = false ->
    ends_as rounds en
      (Raise e,
       mkWorld (parent (script_file en)) (S k)
         (succeeded (firstn k (fatal_ops en))
            ++ [mkEvent (nth k (fatal_ops en) Close) (Some e)]) [])
| fatal :
    quiet_before 4 en -> fs_exists en (dist_dir en) = false ->
    ends_as rounds en
      (Raise (SystemExit 1),
       mkWorld (parent (script_file en)) 4 (succeeded (fatal_ops en)) [])
| startup_fault k e :
    2 <= k < startup_ticks -> quiet_before k en -> fault en k = Some e ->
    fs_exists en (dist_dir en) = true ->
    ends_as rounds en
      (Raise e,
       mkWorld (cwd_at en k) (S k)
         (succeeded (firstn k (startup_ops en))
            ++ mkEvent (nth k (startup_ops en) Close) (Some e)
               :: (if (3 <=? k)%nat then [mkEvent Close None] else [])) [])
| still_serving :
    quiet_before (startup_ticks + rounds) en ->
    fs_exists en (dist_dir en) = true ->
    ends_as rounds en (Pending, after_rounds the_server en rounds (listening en))
| uncaught k e :
    k < rounds -> quiet_before (startup_ticks + k) en ->
    fault en (startup_ticks + k) = Some e ->
    is_KeyboardInterrupt e = false ->
    fs_exists en (dist_dir en) = true ->
    ends_as rounds en (Raise e, log Close None (broken en k e))
| interrupted k :
    k < rounds -> quiet_before (startup_ticks + k) en ->
    fault en (startup_ticks + k) = Some KeyboardInterrupt ->
    fault en (S (startup_ticks + k)) = None ->
    fs_exists en (dist_dir en) = true ->
    ends_as rounds en
      (Raise (SystemExit 0),
       log Close None
         (tick (log (Print stopped_line) None (broken en k KeyboardInterrupt))))
| interrupted_again k e :
    k < rounds -> quiet_before (startup_ticks + k) en ->
    fault en (startup_ticks + k) = Some KeyboardInterrupt ->
    fault en (S (startup_ticks + k)) = Some e ->
    fs_exists en (dist_dir en) = true ->
    ends_as rounds en
      (Raise e,
       log Close None
         (tick (log (Print stopped_line) (Some e) (broken en k KeyboardInterrupt)))).

(** ** Sample environments *)

Module Sample.

Definition app_dir : path := ["home"; "dev"; "daydream"].

Definition get_index : request := mkRequest ("GET / HTTP/1.1" ++ CRLF)%string [].
Definition get_missing : request :=
  mkRequest ("GET /nope.js HTTP/1.1" ++ CRLF)%string [].

(** A request line without a version, and one with a version the
    library does not support. *)
Definition get_plain : request := mkRequest ("GET /" ++ CRLF)%string [].
Definition get_h2 : request := mkRequest ("GET / HTTP/2.0" ++ CRLF)%string [].

Definition not_found : reply :=
  mkReply 404 "File not found"
    [("Server", "SimpleHTTP/0.6"); ("Content-Type", "text/html;charset=utf-8")]
    ["<h1>404</h1>"].

Definition index_page : reply :=
  mkReply 200 "OK"
    [("Server", "SimpleHTTP/0.6"); ("Content-type", "text/html")]
    ["<!doctype html>"].

Definition unsupported : reply :=
  mkReply 505 "HTTP Version Not Supported"
    [("Server", "SimpleHTTP/0.6"); ("Content-Type", "text/html;charset=utf-8")]
    ["<h1>505</h1>"].

Definition files (_ : path) (rq : request) : option reply :=
  if String.eqb (raw_requestline rq) (raw_requestline get_h2) then Some unsupported
  else if (String.eqb (raw_requestline rq) (raw_requestline get_index)
           || String.eqb (raw_requestline rq) (raw_requestline get_plain))%bool
       then Some index_page
       else Some not_found.

(** The script is [/home/dev/daydream/serve-local.py], started from
    [/home/dev]; nothing fails; a request for a missing file arrives in
    the second round of the serve loop. *)
Definition calm (built : bool) : env :=
  mkEnv ["serve-local.py"] (app_dir // "serve-local.py") ["home"; "dev"]
    (fun p => if list_eq_dec string_dec p (app_dir // "dist") then built else true)
    (fun _ => None)
    (fun n => if Nat.eqb n 11 then Some get_missing else None)
    files.

(** The same environment, except that the operation started at tick
    [k] raises [e]. *)
Definition failing (k : nat) (e : exn) (en : env) : env :=
  mkEnv (argv en) (script_file en) (launch_cwd en) (fs_exists en)
    (fun n => if Nat.eqb n k then Some e else fault en n)
    (incoming en) (static_reply en).

(** The calm environment with the build output in place, except that
    the request of the second round is the given one. *)
Definition client (rq : request) : env :=
  mkEnv ["serve-local.py"] (app_dir // "serve-local.py") ["home"; "dev"]
    (fun _ => true)
    (fun _ => None)
    (fun n => if Nat.eqb n 11 then Some rq else None)
    files.

Definition old_client : env := client get_plain.
Definition h2_client : env := client get_h2.

(** The one exchange of three rounds in the calm environment. *)
Definition first_exchange : exchange :=
  hd (mkExchange [] get_index []) (served (snd (run 3 (calm true)))).

End Sample.

(** ** Further vocabulary *)

(** Two environments give the script the same answers: the same
    location of the script, the same file system, the same exceptions
    and the same traffic.  They may differ in the command line and in
    the directory the script is started from. *)
Definition env_agree (en1 en2 : env) : Prop :=
  script_file en1 = script_file en2
  /\ (forall p, fs_exists en1 p = fs_exists en2 p)
  /\ (forall k, fault en1 k = fault en2 k)
  /\ (forall k, incoming en1 k = incoming en2 k)
  /\ (forall d rq, static_reply en1 d rq = static_reply en2 d rq).

(** A computation that behaves alike in environments that agree. *)
Definition env_invariant {A : Type} (m : M A) : Prop :=
  forall en1 en2 w, env_agree en1 en2 -> m en1 w = m en2 w.

(** Sending a list of headers, as the inherited handler does. *)
Definition send_headers (hs : list (string * string)) (self : handler) : handler :=
  fold_left (fun h kv => BaseHTTPRequestHandler.send_header (fst kv) (snd kv) h) hs self.

(** The two lines of the report of a missing build output, and the
    start of the line that names the served directory. *)
Definition error_line : string := "❌ Error: 'dist' directory not found!".
Definition advice_line : string :=
  "Please run 'npm run build' first to create the production build.".
Definition serving_from : string := "📁 Serving from: ".

(** An event is a round of the serve loop cut short by [e]. *)
Definition poll_raised (e : exn) (ev : event) : Prop :=
  what ev = Poll /\ raised ev = Some e.

Module Sample2.

(** The calm environment, started from [/tmp] with two arguments. *)
Definition elsewhere : env :=
  mkEnv ["serve-local.py"; "--port"; "9000"] (Sample.app_dir // "serve-local.py") ["tmp"]
    (fs_exists (Sample.calm true)) (fun _ => None)
    (incoming (Sample.calm true)) Sample.files.


(** A handler in the middle of a reply: a status line and one header
    are buffered, nothing is written yet. *)
Definition midway : handler :=
  mkHandler "HTTP/1.1" "HTTP/1.0"
    [status_line "HTTP/1.0" 200 "OK"; header_line "Content-type" "text/html"]
    true [].

End Sample2.

(** * Properties *)

(** ** The monad and the loop *)

Lemma syscall_ok {A} (o : op) eff (val : env -> world -> A) en w :
  fault en (clock w) = None ->
  syscall o eff val en w = (Ok (val en w), tick (log o None (eff en w))).
Proof. intros H. unfold syscall. now rewrite H. Qed.

Lemma syscall_raise {A} (o : op) eff (val : env -> world -> A) en w e :
  fault en (clock w) = Some e ->
  syscall o eff val en w = (Raise e, tick (log o (Some e) w)).
Proof. intros H. unfold syscall. now rewrite H. Qed.

Section Loop.

Variable httpd : TCPServer.
Variable en : env.

Lemma clock_answer w : clock (answer httpd en w) = clock w.
Proof. unfold answer. now destruct (incoming en (clock w)). Qed.

Lemma cwd_answer w : cwd (answer httpd en w) = cwd w.
Proof. unfold answer. now destruct (incoming en (clock w)). Qed.

Lemma trace_answer w : trace (answer httpd en w) = trace w.
Proof. unfold answer. now destruct (incoming en (clock w)). Qed.

(** Closes a goal [fault en c = v] with a fact about the same tick
    written differently. *)
Ltac at_tick H :=
  eapply eq_trans; [| apply H; lia];
  f_equal; simpl; rewrite ?clock_answer; lia.

Lemma clock_after_rounds n : forall w, clock (after_rounds httpd en n w) = clock w + n.
Proof.
  induction n as [|n IH]; intros w; simpl.
  - lia.
  - rewrite IH. simpl. rewrite clock_answer. lia.
Qed.

Lemma cwd_after_rounds n : forall w, cwd (after_rounds httpd en n w) = cwd w.
Proof.
  induction n as [|n IH]; intros w; simpl; [reflexivity|].
  rewrite IH. simpl. apply cwd_answer.
Qed.

Lemma trace_after_rounds n :
  forall w, trace (after_rounds httpd en n w) = trace w ++ repeat (mkEvent Poll None) n.
Proof.
  induction n as [|n IH]; intros w; simpl.
  - now rewrite app_nil_r.
  - rewrite IH. simpl. rewrite trace_answer, <- app_assoc. reflexivity.
Qed.

(** As long as nothing is raised the loop goes on, whatever the number
    of rounds. *)
Lemma serve_forever_pending rounds :
  forall w,
    (forall j, j < rounds -> fault en (clock w + j) = None) ->
    serve_forever httpd rounds en w = (Pending, after_rounds httpd en rounds w).
Proof.
  induction rounds as [|n IH]; intros w Hq; simpl; [reflexivity|].
  unfold bind, serve_round. rewrite syscall_ok.
  - apply IH. intros j Hj. at_tick (Hq (S j)).
  - at_tick (Hq 0).
Qed.

(** The first exception raised in a round leaves the loop. *)
Lemma serve_forever_raise k :
  forall rounds w e,
    k < rounds ->
    (forall j, j < k -> fault en (clock w + j) = None) ->
    fault en (clock w + k) = Some e ->
    serve_forever httpd rounds en w
    = (Raise e, tick (log Poll (Some e) (after_rounds httpd en k w))).
Proof.
  induction k as [|k IH]; intros rounds w e Hk Hq He;
    (destruct rounds as [|n]; [lia|]); simpl; unfold bind, serve_round.
  - rewrite (syscall_raise _ _ _ _ _ e); [reflexivity|]. at_tick He.
  - rewrite syscall_ok.
    + apply IH; [lia| |].
      * intros j Hj. at_tick (Hq (S j)).
      * at_tick He.
    + at_tick (Hq 0).
Qed.

(** Either nothing is raised during [n] ticks from [c] on, or there is
    a first tick at which something is. *)
Lemma first_fault n c :
  (forall j, j < n -> fault en (c + j) = None)
  \/ exists k e,
       k < n /\ (forall j, j < k -> fault en (c + j) = None)
       /\ fault en (c + k) = Some e.
Proof.
  induction n as [|n [IH | (k & e & Hk & Hq & He)]].
  - left. intros j Hj. lia.
  - destruct (fault en (c + n)) as [e|] eqn:Hn.
    + right. exists n, e. auto.
    + left. intros j Hj. destruct (Nat.eq_dec j n) as [->|]; [assumption|].
      apply IH. lia.
  - right. exists k, e. auto.
Qed.

End Loop.

(** ** The handler *)

Section Handler.

Lemma not_09 (v : string) : v <> "HTTP/0.9" -> String.eqb v "HTTP/0.9" = false.
Proof. intros H. now apply String.eqb_neq. Qed.

(** The headers of the inherited handler go to the buffer, in order,
    and nothing is written yet. *)
Lemma send_headers_buffer (hs : list (string * string)) :
  forall self,
    request_version self <> "HTTP/0.9" ->
    let self' := fold_left (fun h kv => BaseHTTPRequestHandler.send_header (fst kv) (snd kv) h) hs self in
    request_version self' = request_version self
    /\ protocol_version self' = protocol_version self
    /\ _headers_buffer self'
       = _headers_buffer self ++ map (fun kv => header_line (fst kv) (snd kv)) hs
    /\ wfile self' = wfile self.
Proof.
  induction hs as [|[k v] hs IH]; intros self Hv; simpl.
  - now rewrite app_nil_r.
  - destruct (IH (BaseHTTPRequestHandler.send_header k v self)) as (Hr & Hp & Hb & Hw); [exact Hv|].
    rewrite Hr, Hp, Hb, Hw. simpl. rewrite (not_09 _ Hv), <- app_assoc.
    repeat split; reflexivity.
Qed.

(** What the override adds to the inherited method: the three lines,
    placed in the buffer before the inherited method finishes the
    header section. *)
Lemma end_headers_override self :
  request_version self <> "HTTP/0.9" ->
  CORSHTTPRequestHandler_end_headers self
  = BaseHTTPRequestHandler.end_headers
      (mkHandler (request_version self) (protocol_version self)
         (_headers_buffer self ++ cors_lines) (close_connection self) (wfile self)).
Proof.
  intros Hv. unfold CORSHTTPRequestHandler_end_headers, BaseHTTPRequestHandler.send_header; simpl.
  rewrite (not_09 _ Hv). unfold cors_lines. rewrite <- !app_assoc. reflexivity.
Qed.

Lemma send_reply_cors (r : reply) (rq : request) :
  parsed_request_version (raw_requestline rq) <> "HTTP/0.9" ->
  wfile (send_reply (cls := CORSHTTPRequestHandler) r (new_handler rq))
  = String.concat "" (base_lines r ++ cors_lines ++ [CRLF]) :: body r.
Proof.
  intros Hv. unfold send_reply. cbv zeta.
  set (h1 := BaseHTTPRequestHandler.send_response_only (code r) (message r) (new_handler rq)).
  assert (H1 : request_version h1 = parsed_request_version (raw_requestline rq)
               /\ protocol_version h1 = "HTTP/1.0"
               /\ _headers_buffer h1 = [status_line "HTTP/1.0" (code r) (message r)]
               /\ wfile h1 = []).
  { unfold h1, BaseHTTPRequestHandler.send_response_only, new_handler; simpl.
    rewrite (not_09 _ Hv). repeat split; reflexivity. }
  destruct H1 as (Hr1 & Hp1 & Hb1 & Hw1).
  destruct (send_headers_buffer (headers r) h1) as (Hr & Hp & Hb & Hw).
  { now rewrite Hr1. }
  set (h2 := fold_left _ (headers r) h1) in *.
  change (end_headers h2) with (CORSHTTPRequestHandler_end_headers h2).
  rewrite end_headers_override by now rewrite Hr, Hr1.
  unfold BaseHTTPRequestHandler.end_headers, BaseHTTPRequestHandler.flush_headers; simpl.
  rewrite Hr, Hr1, (not_09 _ Hv); simpl. rewrite Hb, Hb1, Hw, Hw1. simpl.
  unfold base_lines. rewrite <- !app_assoc. reflexivity.
Qed.

Lemma send_reply_inherited (r : reply) (rq : request) :
  parsed_request_version (raw_requestline rq) <> "HTTP/0.9" ->
  wfile (send_reply (cls := SimpleHTTPRequestHandler) r (new_handler rq))
  = String.concat "" (base_lines r ++ [CRLF]) :: body r.
Proof.
  intros Hv. unfold send_reply. cbv zeta.
  set (h1 := BaseHTTPRequestHandler.send_response_only (code r) (message r) (new_handler rq)).
  assert (H1 : request_version h1 = parsed_request_version (raw_requestline rq)
               /\ _headers_buffer h1 = [status_line "HTTP/1.0" (code r) (message r)]
               /\ wfile h1 = []).
  { unfold h1, BaseHTTPRequestHandler.send_response_only, new_handler; simpl.
    rewrite (not_09 _ Hv). repeat split; reflexivity. }
  destruct H1 as (Hr1 & Hb1 & Hw1).
  destruct (send_headers_buffer (headers r) h1) as (Hr & Hp & Hb & Hw).
  { now rewrite Hr1. }
  set (h2 := fold_left _ (headers r) h1) in *.
  change (end_headers h2) with (BaseHTTPRequestHandler.end_headers h2).
  unfold BaseHTTPRequestHandler.end_headers, BaseHTTPRequestHandler.flush_headers; simpl.
  rewrite Hr, Hr1, (not_09 _ Hv); simpl. rewrite Hb, Hb1, Hw, Hw1. simpl.
  unfold base_lines. reflexivity.
Qed.

(** While [request_version] is ["HTTP/0.9"] the headers go nowhere. *)
Lemma send_headers_09 (hs : list (string * string)) :
  forall self,
    request_version self = "HTTP/0.9" ->
    let self' :=
      fold_left (fun h kv => BaseHTTPRequestHandler.send_header (fst kv) (snd kv) h)
        hs self in
    request_version self' = "HTTP/0.9"
    /\ _headers_buffer self' = _headers_buffer self
    /\ wfile self' = wfile self.
Proof.
  induction hs as [|[k v] hs IH]; intros self Hv; simpl.
  - auto.
  - destruct (IH (BaseHTTPRequestHandler.send_header k v self)) as (Hr & Hb & Hw);
      [exact Hv|].
    rewrite Hr, Hb, Hw. simpl. rewrite Hv. auto.
Qed.

(** The whole reply is then the body. *)
Lemma send_reply_09 (r : reply) (rq : request) :
  parsed_request_version (raw_requestline rq) = "HTTP/0.9" ->
  wfile (send_reply (cls := CORSHTTPRequestHandler) r (new_handler rq)) = body r.
Proof.
  intros Hv. unfold send_reply. cbv zeta.
  assert (H1 : BaseHTTPRequestHandler.send_response_only (code r) (message r)
                 (new_handler rq) = new_handler rq).
  { unfold BaseHTTPRequestHandler.send_response_only, new_handler; simpl.
    now rewrite Hv. }
  rewrite H1.
  destruct (send_headers_09 (headers r) (new_handler rq)) as (Hr & Hb & Hw);
    [exact Hv|].
  set (h2 := fold_left _ (headers r) (new_handler rq)) in *.
  change (end_headers h2) with (CORSHTTPRequestHandler_end_headers h2).
  unfold CORSHTTPRequestHandler_end_headers, BaseHTTPRequestHandler.send_header,
    BaseHTTPRequestHandler.end_headers; simpl.
  rewrite Hr. simpl. rewrite Hw. reflexivity.
Qed.

End Handler.

(** ** How a run unfolds *)

(** Unfolds the script down to the next question to the environment. *)
Ltac crank :=
  cbv [run main bind Path_file os_chdir path_exists print os_getcwd syscall
       with_server TCPServer_init try_except ret raise sys_exit boot tick log
       is_KeyboardInterrupt];
  cbn [clock cwd trace served fst snd app negb].

(** Answers the questions about the first ticks from what is known of
    the environment: [Hq] for the quiet ticks, [He] for the tick that
    fails, [Hd] for the file system. *)
Ltac feed Hq He Hd :=
  crank;
  repeat (first
    [ rewrite Hd
    | match goal with
      | |- context [fault ?en ?j] => first [rewrite (Hq j) by lia | rewrite He]
      end ];
    crank).

Section Unfolding.

Variable rounds : nat.
Variable en : env.

(** An exception in one of the first two operations, before the
    script has looked for the build output. *)
Lemma run_early_fault k e :
  k < 2 -> quiet_before k en -> fault en k = Some e ->
  run rounds en
  = (Raise e,
     mkWorld (cwd_at en k) (S k)
       (succeeded (firstn k (startup_ops en))
          ++ [mkEvent (nth k (startup_ops en) Close) (Some e)]) []).
Proof.
  intros Hk Hq He.
  destruct k as [|[|k]]; [| |lia]; feed Hq He He; reflexivity.
Qed.

(** An exception while the script reports the missing build output. *)
Lemma run_fatal_fault k e :
  2 <= k < 4 -> quiet_before k en -> fault en k = Some e ->
  fs_exists en (dist_dir en) = false ->
  run rounds en
  = (Raise e,
     mkWorld (parent (script_file en)) (S k)
       (succeeded (firstn k (fatal_ops en))
          ++ [mkEvent (nth k (fatal_ops en) Close) (Some e)]) []).
Proof.
  intros Hk Hq He Hd. unfold dist_dir in Hd.
  destruct k as [|[|[|[|k]]]]; try lia; feed Hq He Hd; reflexivity.
Qed.

(** The missing build output, reported without incident. *)
Lemma run_fatal :
  quiet_before 4 en -> fs_exists en (dist_dir en) = false ->
  run rounds en
  = (Raise (SystemExit 1),
     mkWorld (parent (script_file en)) 4 (succeeded (fatal_ops en)) []).
Proof.
  intros Hq Hd. unfold dist_dir in Hd. feed Hq Hd Hd. reflexivity.
Qed.

(** An exception between the check and the serve loop.  From the bind
    on the server is closed on the way out: by the constructor if the
    bind itself fails, by the with block afterwards. *)
Lemma run_startup_fault k e :
  2 <= k < startup_ticks -> quiet_before k en -> fault en k = Some e ->
  fs_exists en (dist_dir en) = true ->
  run rounds en
  = (Raise e,
     mkWorld (cwd_at en k) (S k)
       (succeeded (firstn k (startup_ops en))
          ++ mkEvent (nth k (startup_ops en) Close) (Some e)
             :: (if (3 <=? k)%nat then [mkEvent Close None] else [])) []).
Proof.
  intros Hk Hq He Hd. unfold dist_dir in Hd. unfold startup_ticks in Hk.
  do 10 (destruct k as [|k]; [try lia; feed Hq He Hd; reflexivity|]). lia.
Qed.

(** A start without incident reaches the serve loop; from there on the
    run is the loop, the except clause and the end of the with
    block. *)
Lemma run_listening :
  quiet_before startup_ticks en -> fs_exists en (dist_dir en) = true ->
  run rounds en
  = with_server (ret the_server)
      (fun httpd =>
         try_except (serve_forever httpd rounds) is_KeyboardInterrupt
           (fun _ => print stopped_line ;; sys_exit 0))
      en (listening en).
Proof.
  intros Hq Hd. unfold dist_dir in Hd. unfold startup_ticks in Hq.
  feed Hq Hd Hd. reflexivity.
Qed.

End Unfolding.

Section Serving.

Variable rounds : nat.
Variable en : env.
Hypothesis built : fs_exists en (dist_dir en) = true.

Lemma quiet_loop n :
  quiet_before (startup_ticks + n) en ->
  forall j, j < n -> fault en (clock (listening en) + j) = None.
Proof. intros Hq j Hj. apply Hq. simpl. unfold startup_ticks. lia. Qed.

Lemma quiet_start n : quiet_before (startup_ticks + n) en -> quiet_before startup_ticks en.
Proof. intros Hq j Hj. apply Hq. lia. Qed.

(** No exception: the script is still serving, however long the
    observation. *)
Lemma run_pending :
  quiet_before (startup_ticks + rounds) en ->
  run rounds en = (Pending, after_rounds the_server en rounds (listening en)).
Proof.
  intros Hq. rewrite run_listening by eauto using quiet_start.
  unfold with_server, try_except, bind, ret.
  rewrite serve_forever_pending by now apply quiet_loop.
  reflexivity.
Qed.

(** An exception other than KeyboardInterrupt leaves the loop, the try
    statement and the with block, and the script with them. *)
Lemma run_uncaught k e :
  k < rounds -> quiet_before (startup_ticks + k) en ->
  fault en (startup_ticks + k) = Some e ->
  is_KeyboardInterrupt e = false ->
  run rounds en = (Raise e, log Close None (broken en k e)).
Proof.
  intros Hk Hq He Hc. rewrite run_listening by eauto using quiet_start.
  unfold with_server, try_except, bind, ret.
  rewrite (serve_forever_raise _ _ k rounds _ e)
    by (try apply quiet_loop; assumption).
  rewrite Hc. reflexivity.
Qed.

(** KeyboardInterrupt in the loop is caught: the notice is printed and
    the script exits with status 0. *)
Lemma run_interrupted k :
  k < rounds -> quiet_before (startup_ticks + k) en ->
  fault en (startup_ticks + k) = Some KeyboardInterrupt ->
  fault en (S (startup_ticks + k)) = None ->
  run rounds en
  = (Raise (SystemExit 0),
     log Close None (tick (log (Print stopped_line) None (broken en k KeyboardInterrupt)))).
Proof.
  intros Hk Hq He Hn. rewrite run_listening by eauto using quiet_start.
  unfold with_server, try_except, bind, ret.
  rewrite (serve_forever_raise _ _ k rounds _ KeyboardInterrupt)
    by (try apply quiet_loop; assumption).
  cbn [is_KeyboardInterrupt]. unfold print, sys_exit, raise.
  rewrite syscall_ok; [reflexivity|].
  unfold broken. cbn [tick log clock]. rewrite clock_after_rounds. exact Hn.
Qed.

(** The except clause itself can be cut short. *)
Lemma run_interrupted_again k e :
  k < rounds -> quiet_before (startup_ticks + k) en ->
  fault en (startup_ticks + k) = Some KeyboardInterrupt ->
  fault en (S (startup_ticks + k)) = Some e ->
  run rounds en
  = (Raise e,
     log Close None
       (tick (log (Print stopped_line) (Some e) (broken en k KeyboardInterrupt)))).
Proof.
  intros Hk Hq He Hn. rewrite run_listening by eauto using quiet_start.
  unfold with_server, try_except, bind, ret.
  rewrite (serve_forever_raise _ _ k rounds _ KeyboardInterrupt)
    by (try apply quiet_loop; assumption).
  cbn [is_KeyboardInterrupt]. unfold print, sys_exit, raise.
  rewrite (syscall_raise _ _ _ _ _ e); [reflexivity|].
  unfold broken. cbn [tick log clock]. rewrite clock_after_rounds. exact Hn.
Qed.

End Serving.

Lemma quiet_before_le n m en : n <= m -> quiet_before m en -> quiet_before n en.
Proof. intros Hle Hq j Hj. apply Hq. lia. Qed.

(** Every observation ends in one of these ways. *)
Lemma run_ends rounds en : ends_as rounds en (run rounds en).
Proof.
  destruct (first_fault en (startup_ticks + rounds) 0)
    as [Hq | (k & e & Hk & Hq & He)];
    change (quiet_before (startup_ticks + rounds) en) in Hq
    || change (quiet_before k en) in Hq;
    destruct (fs_exists en (dist_dir en)) eqn:Hd.
  - rewrite run_pending by assumption. now constructor.
  - assert (Hq4 : quiet_before 4 en)
      by (apply (quiet_before_le 4) in Hq; [assumption | unfold startup_ticks; lia]).
    rewrite run_fatal by assumption. now constructor.
  - change (fault en k = Some e) in He.
    destruct (Nat.lt_ge_cases k 2) as [H2|H2];
      [rewrite (run_early_fault _ _ k e) by assumption; now constructor|].
    destruct (Nat.lt_ge_cases k startup_ticks) as [H10|H10];
      [rewrite (run_startup_fault _ _ k e) by auto; now constructor|].
    assert (Hk' : k - startup_ticks < rounds) by lia.
    replace k with (startup_ticks + (k - startup_ticks)) in Hq, He by lia.
    destruct (is_KeyboardInterrupt e) eqn:Hc.
    + destruct e; try discriminate.
      destruct (fault en (S (startup_ticks + (k - startup_ticks)))) as [e'|] eqn:Hn.
      * rewrite (run_interrupted_again _ _ Hd (k - startup_ticks) e') by assumption. now constructor.
      * rewrite (run_interrupted _ _ Hd (k - startup_ticks)) by assumption.
        now constructor.
    + rewrite (run_uncaught _ _ Hd (k - startup_ticks) e) by assumption.
      now constructor.
  - change (fault en k = Some e) in He.
    destruct (Nat.lt_ge_cases k 2) as [H2|H2];
      [rewrite (run_early_fault _ _ k e) by assumption; now constructor|].
    destruct (Nat.lt_ge_cases k 4) as [H4|H4];
      [rewrite (run_fatal_fault _ _ k e) by auto; now constructor|].
    assert (Hq4 : quiet_before 4 en) by (apply (quiet_before_le 4) in Hq; assumption).
    rewrite run_fatal by assumption. now constructor.
Qed.

(** ** The worlds of the serving phase *)

Lemma run_view rounds en : exists x, run rounds en = x /\ ends_as rounds en x.
Proof. exists (run rounds en). split; [reflexivity | apply run_ends]. Qed.

(** Case analysis on the way the observation ends. *)
Ltac by_ending rounds en :=
  let x := fresh "x" in
  let Hx := fresh "Hx" in
  let V := fresh "V" in
  destruct (run_view rounds en) as (x & Hx & V);
  rewrite ?Hx; clear Hx; destruct V.

(** Enumerates the tick of a fault that happened during the start. *)
Ltac enum k := repeat (destruct k as [|k]; [ | try lia ]); try lia.

Ltac enum_ticks :=
  try match goal with
      | H : ?k < 2 |- _ => enum k
      | H : _ <= ?k < _ |- _ => unfold startup_ticks in H; enum k
      end.

Section ServingWorlds.

Variable en : env.

Lemma trace_serving n :
  trace (after_rounds the_server en n (listening en))
  = succeeded (startup_ops en) ++ repeat (mkEvent Poll None) n.
Proof. now rewrite trace_after_rounds. Qed.

Lemma cwd_serving n : cwd (after_rounds the_server en n (listening en)) = dist_dir en.
Proof. now rewrite cwd_after_rounds. Qed.

(** Every exchange of the serving phase is answered from the build
    output directory by the handler class of the script. *)
Lemma served_after_rounds n :
  forall w,
    cwd w = dist_dir en ->
    Forall (fun x => directory x = dist_dir en /\ answered_with_cors en x) (served w) ->
    Forall (fun x => directory x = dist_dir en /\ answered_with_cors en x)
      (served (after_rounds the_server en n w)).
Proof.
  induction n as [|n IH]; intros w Hc Hs; simpl; [assumption|].
  apply IH; simpl.
  - now rewrite cwd_answer.
  - unfold answer. destruct (incoming en (clock w)) as [rq|]; [|assumption].
    simpl. apply Forall_app. split; [assumption|]. constructor; [|constructor].
    simpl. split; [assumption|]. intros r Hr. simpl in *.
    rewrite Hr.
    destruct (String.eqb (parsed_request_version (raw_requestline rq)) "HTTP/0.9")
      eqn:Hv.
    + apply send_reply_09. now apply String.eqb_eq.
    + apply send_reply_cors. now apply String.eqb_neq.
Qed.

Lemma served_serving n :
  Forall (fun x => directory x = dist_dir en /\ answered_with_cors en x)
    (served (after_rounds the_server en n (listening en))).
Proof. apply served_after_rounds; [reflexivity | constructor]. Qed.

End ServingWorlds.

(** Every exchange of every observation is one of the serving phase. *)
Lemma served_run rounds en :
  Forall (fun x => directory x = dist_dir en /\ answered_with_cors en x)
    (served (snd (run rounds en))).
Proof.
  by_ending rounds en; cbn [snd served log tick broken];
    try apply served_serving; constructor.
Qed.

(** * The claims *)

(** ** Responses *)

(** *** Ordinary request lines *)

Lemma append_assoc (a b c : string) : ((a ++ b) ++ c)%string = (a ++ (b ++ c))%string.
Proof. induction a as [|x a IH]; simpl; [reflexivity | now rewrite IH]. Qed.

(** A word is read in one piece. *)
Lemma split_words_word (t : string) :
  forall word rest,
    no_space t = true ->
    split_words word (t ++ rest)%string = split_words (word ++ t)%string rest.
Proof.
  induction t as [|c t IH]; intros word rest Hn; simpl.
  - f_equal. clear. induction word as [|x word IH]; simpl; [reflexivity | now rewrite <- IH].
  - simpl in Hn. apply andb_prop in Hn. destruct Hn as [Hc Hn].
    apply negb_true_iff in Hc. rewrite Hc, (IH _ _ Hn), append_assoc. reflexivity.
Qed.

Lemma rstrip_crlf_app (a b : string) :
  rstrip_crlf b <> EmptyString ->
  rstrip_crlf (a ++ b)%string = (a ++ rstrip_crlf b)%string.
Proof.
  intros Hb. induction a as [|c a IH]; simpl; [reflexivity|].
  rewrite IH. destruct (a ++ rstrip_crlf b)%string eqn:E; [|reflexivity].
  destruct a; simpl in E; [contradiction | discriminate E].
Qed.

Lemma rstrip_crlf_cons c s :
  rstrip_crlf (String c s)
  = match rstrip_crlf s with
    | EmptyString =>
        if ((nat_of_ascii c =? 13)%nat || (nat_of_ascii c =? 10)%nat)%bool
        then EmptyString else String c EmptyString
    | rest => String c rest
    end.
Proof. reflexivity. Qed.

(** The line end goes, the word stays. *)
Lemma rstrip_crlf_word (v : string) :
  no_space v = true -> rstrip_crlf (v ++ CRLF)%string = v.
Proof.
  induction v as [|c v IH]; intros Hn; [reflexivity|].
  simpl in Hn. apply andb_prop in Hn. destruct Hn as [Hc Hn].
  change (String c v ++ CRLF)%string with (String c (v ++ CRLF)%string).
  rewrite rstrip_crlf_cons, (IH Hn). destruct v; [|reflexivity].
  destruct c as [[] [] [] [] [] [] [] []]; try reflexivity; discriminate Hc.
Qed.

Lemma append_empty (v : string) : (v ++ "")%string = v.
Proof. induction v as [|x v IH]; simpl; [reflexivity | now rewrite IH]. Qed.

(** The words of an ordinary request line are its three words. *)
Lemma words_of_request_line m t v :
  is_word m = true -> is_word t = true -> is_word v = true ->
  str_split (rstrip_crlf (request_line m t v)) = [m; t; v].
Proof.
  unfold is_word. intros Hm Ht Hv.
  apply andb_prop in Hm, Ht, Hv.
  destruct Hm as [Hm1 Hm2], Ht as [Ht1 Ht2], Hv as [Hv1 Hv2].
  apply negb_true_iff, String.eqb_neq in Hm1, Ht1, Hv1.
  unfold request_line, str_split.
  replace (m ++ " " ++ t ++ " " ++ v ++ CRLF)%string
    with ((m ++ " " ++ t ++ " ") ++ (v ++ CRLF))%string
    by (rewrite !append_assoc; reflexivity).
  rewrite rstrip_crlf_app by (rewrite rstrip_crlf_word by exact Hv2; exact Hv1).
  rewrite rstrip_crlf_word by exact Hv2. rewrite !append_assoc.
  rewrite split_words_word by exact Hm2.
  change ("" ++ m)%string with m.
  change (" " ++ t ++ " " ++ v)%string with (String " " (t ++ " " ++ v)%string).
  destruct m as [|c m]; [contradiction|].
  change (split_words (String c m) (String " " (t ++ " " ++ v)))
    with (String c m :: split_words EmptyString (t ++ " " ++ v)%string).
  f_equal.
  rewrite split_words_word by exact Ht2.
  change ("" ++ t)%string with t.
  change (" " ++ v)%string with (String " " v).
  destruct t as [|d t]; [contradiction|].
  change (split_words (String d t) (String " " v))
    with (String d t :: split_words EmptyString v).
  f_equal.
  rewrite <- (append_empty v) at 1.
  rewrite split_words_word by exact Hv2.
  change ("" ++ v)%string with v.
  destruct v; [contradiction | reflexivity].
Qed.

(** For an ordinary request line, whatever the method and the target,
    [parse_request] accepts the version. *)
Lemma ordinary_request_line m t v :
  is_word m = true -> is_word t = true ->
  v = "HTTP/1.0" \/ v = "HTTP/1.1" ->
  (N.of_nat (String.length (request_line m t v)) <=? 65536)%N = true ->
  parsed_request_version (request_line m t v) = v.
Proof.
  intros Hm Ht Hv Hl. unfold parsed_request_version.
  replace (65536 <? N.of_nat (String.length (request_line m t v)))%N with false
    by (symmetry; apply N.ltb_ge; now apply N.leb_le).
  rewrite words_of_request_line by (try assumption; destruct Hv as [-> | ->]; reflexivity).
  destruct Hv as [-> | ->]; reflexivity.
Qed.

(** C1, as it is worded, fails for a request line without a version,
    and for one with a version that the library rejects.  The inherited
    [send_header] and [end_headers] write nothing while
    [request_version] is ["HTTP/0.9"], so the three calls of the
    override have no effect: the server answers [GET /] with the bytes
    of the page and nothing else, where the reply of the inherited
    handler was [200 OK], and it answers [GET / HTTP/2.0] with the body
    of the error page alone, where the reply was [505]. *)
Lemma http09_reply_carries_no_header :
  (static_reply Sample.old_client (Sample.app_dir // "dist") Sample.get_plain
   = Some Sample.index_page
   /\ served (snd (run 3 Sample.old_client))
      = [ mkExchange (Sample.app_dir // "dist") Sample.get_plain ["<!doctype html>"] ])
  /\ (static_reply Sample.h2_client (Sample.app_dir // "dist") Sample.get_h2
      = Some Sample.unsupported
      /\ served (snd (run 3 Sample.h2_client))
         = [ mkExchange (Sample.app_dir // "dist") Sample.get_h2 ["<h1>505</h1>"] ]).
Proof. repeat split; vm_compute; reflexivity. Qed.

(** C1, amended.  Take any request and any reply of the inherited
    handler to it (status code, headers, body).  If the handler replies
    with a status line at all, that is if [parse_request] has accepted
    the version word of the request line (three words or more, the last
    one [HTTP/major.minor] below 2.0 and not [HTTP/0.9] itself) or the
    line was rejected for its length, then the response the server
    writes is the header section of the inherited handler followed by
    exactly the three lines
    [Access-Control-Allow-Origin: *],
    [Access-Control-Allow-Methods: GET, POST, OPTIONS] and
    [Access-Control-Allow-Headers: Content-Type, Authorization], placed
    before the blank line with which the inherited [end_headers]
    finishes the header section, and then the body; the inherited
    handler alone would write the same without the three lines.  In the
    other case the response is the body alone.  The first case is that
    of every request line [method target HTTP/1.0] or
    [method target HTTP/1.1], whatever the method and the target. *)
Theorem every_response_carries_cors_headers rounds en x r :
  In x (served (snd (run rounds en))) ->
  static_reply en (directory x) (asked x) = Some r ->
  (parsed_request_version (raw_requestline (asked x)) <> "HTTP/0.9" ->
   wire x
   = String.concat ""
       (base_lines r
          ++ [ ("Access-Control-Allow-Origin: *" ++ CRLF)%string;
               ("Access-Control-Allow-Methods: GET, POST, OPTIONS" ++ CRLF)%string;
               ("Access-Control-Allow-Headers: Content-Type, Authorization" ++ CRLF)%string ]
          ++ [CRLF])
     :: body r
   /\ wfile (send_reply (cls := SimpleHTTPRequestHandler) r (new_handler (asked x)))
      = String.concat "" (base_lines r ++ [CRLF]) :: body r)
  /\ (parsed_request_version (raw_requestline (asked x)) = "HTTP/0.9" ->
      wire x = body r)
  /\ (forall method target version,
        is_word method = true -> is_word target = true ->
        version = "HTTP/1.0" \/ version = "HTTP/1.1" ->
        raw_requestline (asked x) = request_line method target version ->
        wire x
        = String.concat ""
            (base_lines r
               ++ [ ("Access-Control-Allow-Origin: *" ++ CRLF)%string;
                    ("Access-Control-Allow-Methods: GET, POST, OPTIONS" ++ CRLF)%string;
                    ("Access-Control-Allow-Headers: Content-Type, Authorization"
                       ++ CRLF)%string ]
               ++ [CRLF])
          :: body r).
Proof.
  intros Hx Hr.
  pose proof (served_run rounds en) as Hs.
  rewrite Forall_forall in Hs. destruct (Hs x Hx) as [_ Hc].
  specialize (Hc r Hr). split; [|split].
  - intros Hv. rewrite (not_09 _ Hv) in Hc. split; [exact Hc|].
    now apply send_reply_inherited.
  - intros Hv. now rewrite Hv in Hc.
  - intros m t v Hm Ht Hv Hl. rewrite Hl in Hc.
    assert (Hp : parsed_request_version (request_line m t v) <> "HTTP/0.9").
    { destruct (N.of_nat (String.length (request_line m t v)) <=? 65536)%N eqn:Hn.
      - rewrite ordinary_request_line by assumption.
        destruct Hv as [-> | ->]; discriminate.
      - unfold parsed_request_version.
        replace (65536 <? N.of_nat (String.length (request_line m t v)))%N with true
          by (symmetry; apply N.ltb_lt; now apply N.leb_gt).
        discriminate. }
    now rewrite (not_09 _ Hp) in Hc.
Qed.

Lemma every_response_carries_cors_headers_witness :
  wire Sample.first_exchange
  = String.concat ""
      (base_lines Sample.not_found
         ++ [ ("Access-Control-Allow-Origin: *" ++ CRLF)%string;
              ("Access-Control-Allow-Methods: GET, POST, OPTIONS" ++ CRLF)%string;
              ("Access-Control-Allow-Headers: Content-Type, Authorization" ++ CRLF)%string ]
         ++ [CRLF])
    :: body Sample.not_found
  /\ wfile (send_reply (cls := SimpleHTTPRequestHandler) Sample.not_found
              (new_handler (asked Sample.first_exchange)))
     = String.concat "" (base_lines Sample.not_found ++ [CRLF]) :: body Sample.not_found.
Proof.
  destruct (every_response_carries_cors_headers 3 (Sample.calm true)
              Sample.first_exchange Sample.not_found) as (H & _ & _).
  - vm_compute. left. reflexivity.
  - reflexivity.
  - apply H. intros N. vm_compute in N. discriminate N.
Defined.

(** ** The missing build output *)

(** Refutes that a list given element by element has an element that is
    a bind. *)
Ltac no_bind :=
  let B := fresh "B" in
  intros B;
  repeat (apply Exists_cons in B; destruct B as [(? & ? & B) | B]; [discriminate B|]);
  apply Exists_nil in B; exact B.

(** C2. If [dist], resolved against the directory of the script, does
    not exist, the script never starts a bind, whatever else happens;
    and if nothing interrupts it, it prints the two lines that tell the
    operator to run the build and exits with status 1. *)
Theorem missing_dist_exits_1_without_socket rounds en :
  fs_exists en (parent (script_file en) // "dist") = false ->
  ~ List.Exists is_bind (trace (snd (run rounds en)))
  /\ (quiet_before 4 en ->
      ending (fst (run rounds en)) = Exited 1
      /\ stdout (snd (run rounds en))
         = [ "❌ Error: 'dist' directory not found!";
             "Please run 'npm run build' first to create the production build." ]).
Proof.
  intros Hd. change (fs_exists en (dist_dir en) = false) in Hd. split.
  - by_ending rounds en; try congruence; enum_ticks;
      cbn [snd trace succeeded map firstn nth startup_ops fatal_ops app];
      no_bind.
  - intros Hq. rewrite run_fatal by assumption. split; reflexivity.
Qed.

Lemma missing_dist_exits_1_without_socket_witness :
  ~ List.Exists is_bind (trace (snd (run 3 (Sample.calm false))))
  /\ ending (fst (run 3 (Sample.calm false))) = Exited 1
  /\ stdout (snd (run 3 (Sample.calm false)))
     = [ "❌ Error: 'dist' directory not found!";
         "Please run 'npm run build' first to create the production build." ].
Proof.
  destruct (missing_dist_exits_1_without_socket 3 (Sample.calm false)) as [Hb He].
  - reflexivity.
  - split; [exact Hb|]. apply He. intros j _. reflexivity.
Defined.

(** C9. On the exit with status 1 the working directory is no longer
    the one the script was started in: [os.chdir] to the directory of the
    script was carried out first, the check for [dist] came second, and
    the process ends in the directory of the script. *)
Theorem fatal_exit_follows_chdir rounds en :
  fs_exists en (parent (script_file en) // "dist") = false ->
  quiet_before 4 en ->
  ending (fst (run rounds en)) = Exited 1
  /\ cwd (snd (run rounds en)) = parent (script_file en)
  /\ exists rest,
       trace (snd (run rounds en))
       = mkEvent (Chdir (parent (script_file en))) None
         :: mkEvent (PathExists (parent (script_file en) // "dist")) None
         :: rest.
Proof.
  intros Hd Hq. rewrite run_fatal by assumption.
  repeat split. eexists. reflexivity.
Qed.

Lemma fatal_exit_follows_chdir_witness :
  ending (fst (run 0 (Sample.calm false))) = Exited 1
  /\ cwd (snd (run 0 (Sample.calm false))) = ["home"; "dev"; "daydream"]
  /\ exists rest,
       trace (snd (run 0 (Sample.calm false)))
       = mkEvent (Chdir ["home"; "dev"; "daydream"]) None
         :: mkEvent (PathExists ["home"; "dev"; "daydream"; "dist"]) None
         :: rest.
Proof.
  apply (fatal_exit_follows_chdir 0 (Sample.calm false)).
  - reflexivity.
  - intros j _. reflexivity.
Defined.

(** ** Standard output *)

Lemma stdout_log o r w :
  stdout (log o r w)
  = stdout w ++ match o, r with
                | Print line, None => [line]
                | _, _ => []
                end.
Proof.
  unfold stdout, log. cbn [trace]. rewrite flat_map_app. cbn [flat_map what raised].
  now rewrite app_nil_r.
Qed.

Lemma stdout_after_rounds httpd en n :
  forall w, stdout (after_rounds httpd en n w) = stdout w.
Proof.
  induction n as [|n IH]; intros w; simpl; [reflexivity|].
  rewrite IH. change (stdout (tick ?x)) with (stdout x).
  rewrite stdout_log, app_nil_r. unfold stdout. now rewrite trace_answer.
Qed.

Lemma stdout_broken en k e : stdout (broken en k e) = stdout (listening en).
Proof.
  unfold broken. change (stdout (tick ?x)) with (stdout x).
  rewrite stdout_log, stdout_after_rounds. now destruct e; rewrite app_nil_r.
Qed.

(** None of the lines printed during the start is the shutdown notice. *)
Lemma startup_is_silent_about_shutdown en : ~ In stopped_line (stdout (listening en)).
Proof.
  intros H. cbv in H.
  repeat (destruct H as [H|H]; [discriminate H|]). exact H.
Qed.

(** ** Interrupts and failures *)

(** C3. KeyboardInterrupt raised while the script is in the serve loop
    (in round [k], after a start without incident) is caught: the
    script prints the shutdown notice as its last line and exits with
    status 0.  Any number of observed rounds beyond [k] shows it. *)
Theorem interrupt_while_serving_exits_0 rounds en k :
  fs_exists en (parent (script_file en) // "dist") = true ->
  quiet_before (startup_ticks + k) en ->
  fault en (startup_ticks + k) = Some KeyboardInterrupt ->
  fault en (S (startup_ticks + k)) = None ->
  k < rounds ->
  ending (fst (run rounds en)) = Exited 0
  /\ stdout (snd (run rounds en))
     = stdout (listening en) ++ [(LF ++ "🛑 Server stopped")%string].
Proof.
  intros Hd Hq He Hn Hk.
  rewrite (run_interrupted rounds en Hd k) by assumption.
  split; [reflexivity|]. cbn [snd].
  rewrite stdout_log, app_nil_r. change (stdout (tick ?x)) with (stdout x).
  rewrite stdout_log, stdout_broken. reflexivity.
Qed.

Lemma interrupt_while_serving_exits_0_witness :
  ending (fst (run 5 (Sample.failing 12 KeyboardInterrupt (Sample.calm true)))) = Exited 0
  /\ stdout (snd (run 5 (Sample.failing 12 KeyboardInterrupt (Sample.calm true))))
     = stdout (listening (Sample.failing 12 KeyboardInterrupt (Sample.calm true)))
         ++ [(LF ++ "🛑 Server stopped")%string].
Proof.
  apply (interrupt_while_serving_exits_0 5
           (Sample.failing 12 KeyboardInterrupt (Sample.calm true)) 2).
  - reflexivity.
  - intros j Hj. unfold startup_ticks in Hj.
    do 12 (destruct j as [|j]; [reflexivity|]). lia.
  - reflexivity.
  - reflexivity.
  - lia.
Defined.

(** C7. An exception raised by the bind (the port is in use, say) is
    caught nowhere: it leaves [main] as it was raised, the failed bind is
    the last thing the script did (only the constructor closing its own
    socket follows), nothing was printed, and for an [OSError] the
    process ends with that exception unhandled, not with an exit
    status. *)
Theorem bind_failure_is_not_caught rounds en e :
  fs_exists en (parent (script_file en) // "dist") = true ->
  quiet_before 3 en ->
  fault en 3 = Some e ->
  fst (run rounds en) = Raise e
  /\ trace (snd (run rounds en))
     = succeeded [ Chdir (parent (script_file en));
                   PathExists (parent (script_file en) // "dist");
                   Chdir (parent (script_file en) // "dist") ]
         ++ [mkEvent (Bind "localhost" 8000) (Some e); mkEvent Close None]
  /\ stdout (snd (run rounds en)) = []
  /\ forall strerror,
       e = OSError strerror -> ending (fst (run rounds en)) = Unhandled (OSError strerror).
Proof.
  intros Hd Hq He.
  rewrite (run_startup_fault rounds en 3 e) by (unfold startup_ticks; auto with arith).
  repeat split. intros msg ->. reflexivity.
Qed.

Lemma bind_failure_is_not_caught_witness :
  ending (fst (run 5 (Sample.failing 3 (OSError "Address already in use")
                        (Sample.calm true))))
  = Unhandled (OSError "Address already in use").
Proof.
  apply (bind_failure_is_not_caught 5
           (Sample.failing 3 (OSError "Address already in use") (Sample.calm true))
           (OSError "Address already in use")).
  - reflexivity.
  - intros j Hj. do 3 (destruct j as [|j]; [reflexivity|]). lia.
  - reflexivity.
  - reflexivity.
Defined.

(** The shutdown notice is on standard output only when a round of the
    serve loop raised KeyboardInterrupt. *)
Lemma notice_means_interrupt_in_loop rounds en :
  In stopped_line (stdout (snd (run rounds en))) ->
  exists k, k < rounds /\ fault en (startup_ticks + k) = Some KeyboardInterrupt.
Proof.
  by_ending rounds en; cbn [snd]; intros N.
  - enum_ticks; cbv in N; repeat (destruct N as [N|N]; [discriminate N|]); contradiction.
  - enum_ticks; cbv in N; repeat (destruct N as [N|N]; [discriminate N|]); contradiction.
  - cbv in N; repeat (destruct N as [N|N]; [discriminate N|]); contradiction.
  - enum_ticks; cbv in N; repeat (destruct N as [N|N]; [discriminate N|]); contradiction.
  - rewrite stdout_after_rounds in N. now apply startup_is_silent_about_shutdown in N.
  - rewrite stdout_log, app_nil_r, stdout_broken in N.
    now apply startup_is_silent_about_shutdown in N.
  - eauto.
  - rewrite stdout_log, app_nil_r in N. change (stdout (tick ?x)) with (stdout x) in N.
    rewrite stdout_log, app_nil_r, stdout_broken in N.
    now apply startup_is_silent_about_shutdown in N.
Qed.

(** C10. KeyboardInterrupt raised once the check for [dist] has passed
    but before [serve_forever] is entered (during the second chdir, the
    bind, [getcwd] or one of the five prints, ticks 2 to 9) is not
    caught: the process ends with KeyboardInterrupt unhandled, not with
    status 0, and the shutdown notice is not printed.  Conversely, in
    any run whatsoever, the notice is printed only if KeyboardInterrupt
    was raised in a round of the serve loop. *)
Theorem interrupt_before_serving_is_not_caught rounds en k :
  fs_exists en (parent (script_file en) // "dist") = true ->
  2 <= k < startup_ticks ->
  quiet_before k en ->
  fault en k = Some KeyboardInterrupt ->
  ending (fst (run rounds en)) = Unhandled KeyboardInterrupt
  /\ ~ In (LF ++ "🛑 Server stopped")%string (stdout (snd (run rounds en)))
  /\ forall rounds' en',
       In (LF ++ "🛑 Server stopped")%string (stdout (snd (run rounds' en'))) ->
       exists j, j < rounds' /\ fault en' (startup_ticks + j) = Some KeyboardInterrupt.
Proof.
  intros Hd Hk Hq He. split; [|split].
  - now rewrite (run_startup_fault rounds en k KeyboardInterrupt).
  - rewrite (run_startup_fault rounds en k KeyboardInterrupt) by assumption.
    clear Hq He. unfold startup_ticks in Hk. intros N. enum k;
      cbv in N; repeat (destruct N as [N|N]; [discriminate N|]); contradiction.
  - intros rounds' en'. apply notice_means_interrupt_in_loop.
Qed.

Lemma interrupt_before_serving_is_not_caught_witness :
  ending (fst (run 5 (Sample.failing 6 KeyboardInterrupt (Sample.calm true))))
  = Unhandled KeyboardInterrupt
  /\ ~ In (LF ++ "🛑 Server stopped")%string
         (stdout (snd (run 5 (Sample.failing 6 KeyboardInterrupt (Sample.calm true))))).
Proof.
  destruct (interrupt_before_serving_is_not_caught 5
              (Sample.failing 6 KeyboardInterrupt (Sample.calm true)) 6)
    as (He & Hn & _).
  - reflexivity.
  - unfold startup_ticks. lia.
  - intros j Hj. do 6 (destruct j as [|j]; [reflexivity|]). lia.
  - reflexivity.
  - split; assumption.
Defined.

(** C8, as it is worded, fails: the server is listening and has gone
    through two rounds when the third raises [OSError]; no
    KeyboardInterrupt is ever raised, and yet the process ends, with the
    exception unhandled. *)
Lemma serving_ends_without_interrupt :
  let en := Sample.failing 12 (OSError "Cannot allocate memory") (Sample.calm true) in
  List.Exists (done Poll) (trace (snd (run 5 en)))
  /\ ending (fst (run 5 en)) = Unhandled (OSError "Cannot allocate memory")
  /\ forall j, fault en j <> Some KeyboardInterrupt.
Proof.
  intros en. split; [|split].
  - vm_compute. do 10 apply Exists_cons_tl. apply Exists_cons_hd. split; reflexivity.
  - reflexivity.
  - intros j. unfold en. cbn [fault Sample.failing Sample.calm].
    destruct (j =? 12)%nat; discriminate.
Qed.

(** C8, amended.  Once the server is listening (the start went without
    incident), the serve loop goes on for as long as no round raises an
    exception, however many rounds are observed, and an observation can
    only end otherwise because a round did raise one.  What the script
    does with it: KeyboardInterrupt is caught, the notice is printed and
    the exit status is 0; every other exception leaves [main] uncaught,
    without the notice. *)
Theorem serving_ends_only_by_exception rounds en :
  fs_exists en (parent (script_file en) // "dist") = true ->
  quiet_before startup_ticks en ->
  (quiet_before (startup_ticks + rounds) en -> fst (run rounds en) = Pending)
  /\ (fst (run rounds en) = Pending
      \/ exists k e, k < rounds /\ fault en (startup_ticks + k) = Some e)
  /\ forall k e,
       k < rounds ->
       quiet_before (startup_ticks + k) en ->
       fault en (startup_ticks + k) = Some e ->
       if is_KeyboardInterrupt e
       then fault en (S (startup_ticks + k)) = None ->
            ending (fst (run rounds en)) = Exited 0
            /\ In stopped_line (stdout (snd (run rounds en)))
       else fst (run rounds en) = Raise e
            /\ ~ In stopped_line (stdout (snd (run rounds en))).
Proof.
  intros Hd Hs. change (fs_exists en (dist_dir en) = true) in Hd. split; [|split].
  - intros Hq. now rewrite run_pending.
  - by_ending rounds en; cbn [fst]; eauto;
      try congruence;
      match goal with
      | Hf : fault en ?k = Some _ |- _ =>
          rewrite Hs in Hf by (unfold startup_ticks in *; lia); discriminate Hf
      end.
  - intros k e Hk Hq He. destruct (is_KeyboardInterrupt e) eqn:Hc.
    + destruct e; try discriminate Hc. intros Hn.
      rewrite (run_interrupted rounds en Hd k) by assumption.
      split; [reflexivity|]. cbn [snd].
      rewrite stdout_log, app_nil_r. change (stdout (tick ?x)) with (stdout x).
      rewrite stdout_log. apply in_or_app. right. left. reflexivity.
    + rewrite (run_uncaught rounds en Hd k e) by assumption.
      split; [reflexivity|]. cbn [snd].
      rewrite stdout_log, app_nil_r, stdout_broken.
      apply startup_is_silent_about_shutdown.
Qed.

Lemma serving_ends_only_by_exception_witness :
  let en := Sample.failing 12 (OSError "Cannot allocate memory") (Sample.calm true) in
  fst (run 2 en) = Pending
  /\ fst (run 5 en) = Raise (OSError "Cannot allocate memory").
Proof.
  intros en. split.
  - destruct (serving_ends_only_by_exception 2 en) as (Hp & _).
    + reflexivity.
    + intros j Hj. unfold startup_ticks in Hj.
      do 10 (destruct j as [|j]; [reflexivity|]). lia.
    + apply Hp. intros j Hj. unfold startup_ticks in Hj.
      do 12 (destruct j as [|j]; [reflexivity|]). lia.
  - destruct (serving_ends_only_by_exception 5 en) as (_ & _ & He).
    + reflexivity.
    + intros j Hj. unfold startup_ticks in Hj.
      do 10 (destruct j as [|j]; [reflexivity|]). lia.
    + apply (He 2 (OSError "Cannot allocate memory")).
      * lia.
      * intros j Hj. unfold startup_ticks in Hj.
        do 12 (destruct j as [|j]; [reflexivity|]). lia.
      * reflexivity.
Defined.

(** ** The order of the start *)

Lemma guarded_precedes {X : Type} (P Q : X -> Prop) (l : list X) :
  guarded P Q l -> precedes P Q l.
Proof.
  induction l as [|y l IH]; intros G l1 x l2 E HQ.
  - destruct l1; discriminate E.
  - destruct G as [HnQ G]. destruct l1 as [|z l1]; simpl in E; injection E as -> E.
    + contradiction.
    + destruct G as [HP | G].
      * now apply Exists_cons_hd.
      * apply Exists_cons_tl. exact (IH G l1 x l2 E HQ).
Qed.

(** The directory of the script is not its own [dist] subdirectory. *)
Lemma project_dir_is_not_dist (p : path) : p <> p // "dist".
Proof.
  intros E. apply (f_equal (@List.length string)) in E.
  unfold joinpath in E. rewrite List.length_app in E. simpl in E. lia.
Qed.

(** Decides [guarded P Q] on a trace whose first events are given one by
    one, for the predicates on events used below. *)
Ltac refute_event :=
  let N := fresh "N" in
  intros N;
  first
    [ destruct N as (? & ? & N); discriminate N
    | destruct N as (? & N); discriminate N
    | discriminate N
    | injection N as N; exact (project_dir_is_not_dist _ N) ].

Ltac confirm_event :=
  first
    [ split; reflexivity
    | eexists; eexists; split; reflexivity
    | eexists; reflexivity ].

Ltac order :=
  cbn [succeeded map startup_ops fatal_ops firstn nth app guarded Nat.leb];
  repeat
    (cbn [guarded app Nat.leb];
     match goal with
     | |- True => exact I
     | |- ~ _ /\ _ => split; [cbv [started is_bind is_check is_chdir what]; refute_event|]
     | |- _ \/ _ => first [left; cbv [done started what raised]; solve [confirm_event] | right]
     end).

Lemma trace_broken en k e :
  trace (broken en k e)
  = succeeded (startup_ops en) ++ repeat (mkEvent Poll None) k ++ [mkEvent Poll (Some e)].
Proof.
  unfold broken. cbn [trace tick log]. now rewrite trace_serving, <- app_assoc.
Qed.

(** Rewrites the trace of any way of ending into a list that starts with
    the events of the start. *)
Ltac normal_trace :=
  cbn [snd trace log tick];
  rewrite ?trace_broken, ?trace_serving.

(** C5, as it is worded, fails: the very first thing a run does is a
    change of directory, with no check before it. *)
Lemma check_is_not_before_every_chdir :
  ~ precedes is_check is_chdir (trace (snd (run 0 (Sample.calm true)))).
Proof.
  intros H.
  assert (E : List.Exists is_check []).
  { eapply (H []).
    - vm_compute. reflexivity.
    - eexists. reflexivity. }
  inversion E.
Qed.

(** C5, amended.  In every run, whatever happens: the check for [dist]
    comes after the change to the directory of the script; the change
    into [dist] comes after the check; the bind comes after the change
    into [dist]; the rounds of the serve loop come after the bind.  And
    a run without incident does all of it, in this order. *)
Theorem startup_order rounds en :
  let t := trace (snd (run rounds en)) in
  precedes (done (Chdir (parent (script_file en)))) is_check t
  /\ precedes (done (PathExists (parent (script_file en) // "dist")))
       (started (Chdir (parent (script_file en) // "dist"))) t
  /\ precedes (done (Chdir (parent (script_file en) // "dist"))) is_bind t
  /\ precedes (done (Bind "localhost" 8000)) (started Poll) t
  /\ (fs_exists en (parent (script_file en) // "dist") = true ->
      quiet_before (startup_ticks + rounds) en ->
      ops (snd (run rounds en))
      = [ Chdir (parent (script_file en));
          PathExists (parent (script_file en) // "dist");
          Chdir (parent (script_file en) // "dist");
          Bind "localhost" 8000 ]
        ++ skipn 4 (startup_ops en) ++ repeat Poll rounds).
Proof.
  cbv zeta. repeat split.
  - apply guarded_precedes.
    by_ending rounds en; enum_ticks; normal_trace; unfold dist_dir; order.
  - apply guarded_precedes.
    by_ending rounds en; enum_ticks; normal_trace; unfold dist_dir; order.
  - apply guarded_precedes.
    by_ending rounds en; enum_ticks; normal_trace; unfold dist_dir; order.
  - apply guarded_precedes.
    by_ending rounds en; enum_ticks; normal_trace; unfold dist_dir; order.
  - intros Hd Hq. rewrite run_pending by assumption.
    unfold ops. cbn [snd]. rewrite trace_serving, map_app, map_repeat. reflexivity.
Qed.

Lemma startup_order_witness :
  ops (snd (run 2 (Sample.calm true)))
  = [ Chdir ["home"; "dev"; "daydream"];
      PathExists ["home"; "dev"; "daydream"; "dist"];
      Chdir ["home"; "dev"; "daydream"; "dist"];
      Bind "localhost" 8000 ]
    ++ skipn 4 (startup_ops (Sample.calm true)) ++ [Poll; Poll].
Proof.
  destruct (startup_order 2 (Sample.calm true)) as (_ & _ & _ & _ & H).
  apply H.
  - reflexivity.
  - intros j Hj. unfold startup_ticks in Hj.
    do 12 (destruct j as [|j]; [reflexivity|]). lia.
Defined.

(** ** The served directory *)

(** Contradicts a fault at a tick that is known to be quiet. *)
Ltac quiet_tick Hq :=
  match goal with
  | Hf : fault _ ?k = Some _ |- _ =>
      rewrite Hq in Hf by (unfold startup_ticks in *; lia); discriminate Hf
  end.

(** C6. When the check for [dist] succeeds (and the start up to the bind
    goes without incident), the change of the working directory into
    [dist] has been carried out before the server is created; the
    working directory is [dist] from then on, and every request is
    resolved in [dist]. *)
Theorem serving_from_dist rounds en :
  fs_exists en (parent (script_file en) // "dist") = true ->
  quiet_before 4 en ->
  (exists rest,
     trace (snd (run rounds en))
     = succeeded [ Chdir (parent (script_file en));
                   PathExists (parent (script_file en) // "dist");
                   Chdir (parent (script_file en) // "dist");
                   Bind "localhost" 8000 ]
       ++ rest)
  /\ cwd (snd (run rounds en)) = parent (script_file en) // "dist"
  /\ forall x, In x (served (snd (run rounds en))) ->
               directory x = parent (script_file en) // "dist".
Proof.
  intros Hd Hq. change (fs_exists en (dist_dir en) = true) in Hd. split; [|split].
  - by_ending rounds en; try congruence; enum_ticks; try quiet_tick Hq;
      normal_trace; eexists; reflexivity.
  - by_ending rounds en; try congruence; enum_ticks; try quiet_tick Hq;
      cbn [snd cwd log tick broken]; rewrite ?cwd_serving; reflexivity.
  - intros x Hx. pose proof (served_run rounds en) as Hs.
    rewrite Forall_forall in Hs. now destruct (Hs x Hx).
Qed.

Lemma serving_from_dist_witness :
  cwd (snd (run 3 (Sample.calm true))) = ["home"; "dev"; "daydream"; "dist"]
  /\ directory Sample.first_exchange = ["home"; "dev"; "daydream"; "dist"].
Proof.
  destruct (serving_from_dist 3 (Sample.calm true)) as (_ & Hc & Hs).
  - reflexivity.
  - intros j _. reflexivity.
  - split; [exact Hc|]. apply Hs. vm_compute. left. reflexivity.
Defined.

(** ** Configuration *)

Section ArgvBlind.

Context {A B : Type}.

Lemma blind_ret (a : A) : argv_blind (ret a).
Proof. intros args en w. reflexivity. Qed.

Lemma blind_raise (e : exn) : argv_blind (@raise A e).
Proof. intros args en w. reflexivity. Qed.

Lemma blind_bind (m : M A) (k : A -> M B) :
  argv_blind m -> (forall a, argv_blind (k a)) -> argv_blind (bind m k).
Proof.
  intros Hm Hk args en w. unfold bind. rewrite Hm.
  destruct (m en w) as [[a|e|] w']; [apply Hk | reflexivity | reflexivity].
Qed.

Lemma blind_syscall (o : op) eff (val : env -> world -> A) :
  (forall args en w, eff (with_argv args en) w = eff en w) ->
  (forall args en w, val (with_argv args en) w = val en w) ->
  argv_blind (syscall o eff val).
Proof.
  intros He Hv args en w. unfold syscall. cbn [fault with_argv].
  now rewrite He, Hv.
Qed.

Lemma blind_try_except (body : M A) catches (handler : exn -> M A) :
  argv_blind body -> (forall e, argv_blind (handler e)) ->
  argv_blind (try_except body catches handler).
Proof.
  intros Hb Hh args en w. unfold try_except. rewrite Hb.
  destruct (body en w) as [[a|e|] w']; try reflexivity.
  destruct (catches e); [apply Hh | reflexivity].
Qed.

Lemma blind_with_server (ctor : M TCPServer) (body : TCPServer -> M A) :
  argv_blind ctor -> (forall httpd, argv_blind (body httpd)) ->
  argv_blind (with_server ctor body).
Proof.
  intros Hc Hb args en w. unfold with_server, bind. rewrite Hc.
  destruct (ctor en w) as [[httpd|e|] w']; try reflexivity. now rewrite Hb.
Qed.

End ArgvBlind.

Lemma blind_serve_forever httpd rounds : argv_blind (serve_forever httpd rounds).
Proof.
  induction rounds as [|n IH]; [intros args en w; reflexivity|].
  cbn [serve_forever]. apply blind_bind; [|intros _; exact IH].
  apply blind_syscall; reflexivity.
Qed.

(** Nothing in [main] looks at the command line. *)
Lemma blind_main rounds : argv_blind (main rounds).
Proof.
  unfold main.
  apply blind_bind; [intros args en w; reflexivity | intros file].
  apply blind_bind; [apply blind_syscall; reflexivity | intros _].
  apply blind_bind; [apply blind_syscall; reflexivity | intros found].
  apply blind_bind.
  { destruct found; cbn [negb]; [apply blind_ret|].
    repeat (apply blind_bind; [apply blind_syscall; reflexivity | intros _]).
    apply blind_raise. }
  intros _.
  apply blind_bind; [apply blind_syscall; reflexivity | intros _].
  apply blind_with_server; [intros args en w; reflexivity | intros httpd].
  apply blind_bind; [apply blind_syscall; reflexivity | intros _].
  apply blind_bind; [apply blind_syscall; reflexivity | intros here].
  repeat (apply blind_bind; [apply blind_syscall; reflexivity | intros _]).
  apply blind_try_except; [apply blind_serve_forever | intros _].
  apply blind_bind; [apply blind_syscall; reflexivity | intros _].
  apply blind_raise.
Qed.

(** The operations a run can start are those written in [main], the
    rounds of the loop and the closing of the server. *)
Lemma alphabet_of_run rounds en ev :
  In ev (trace (snd (run rounds en))) ->
  In (what ev)
    (startup_ops en ++ fatal_ops en ++ [Poll; Print stopped_line; Close]).
Proof.
  by_ending rounds en; enum_ticks; normal_trace;
    cbn [succeeded map startup_ops fatal_ops firstn nth app Nat.leb];
    intros I;
    repeat match type of I with
           | In _ (_ ++ _) => apply in_app_or in I; destruct I as [I|I]
           | In _ (repeat _ _) => apply repeat_spec in I; subst ev
           | In _ (_ :: _) => destruct I as [I|I]; [subst ev|]
           | In _ [] => contradiction
           end;
    cbn [what startup_ops fatal_ops app In]; tauto.
Qed.

(** What is answered is kept. *)
Lemma served_grows httpd en n :
  forall w x, In x (served w) -> In x (served (after_rounds httpd en n w)).
Proof.
  induction n as [|n IH]; intros w x Hx; simpl; [assumption|].
  apply IH. simpl. unfold answer.
  destruct (incoming en (clock w)); [|assumption].
  simpl. apply in_or_app. now left.
Qed.

(** A request that arrives in a round that is carried out is answered,
    by the handler class of the server, from the working directory. *)
Lemma request_is_answered httpd en n :
  forall w k rq,
    k < n ->
    incoming en (clock w + k) = Some rq ->
    In (mkExchange (cwd w) rq
          (wfile match static_reply en (cwd w) rq with
                 | None => new_handler rq
                 | Some r => send_reply (cls := RequestHandler httpd) r (new_handler rq)
                 end))
       (served (after_rounds httpd en n w)).
Proof.
  induction n as [|n IH]; intros w k rq Hk Hi; [lia|].
  simpl. destruct k as [|k].
  - apply served_grows. simpl. unfold answer.
    rewrite Nat.add_0_r in Hi. rewrite Hi. simpl.
    apply in_or_app. right. left. reflexivity.
  - specialize (IH (tick (log Poll None (answer httpd en w))) k rq).
    simpl in IH. rewrite clock_answer, cwd_answer in IH.
    apply IH; [lia|]. now replace (S (clock w + k)) with (clock w + S k) by lia.
Qed.

(** C4. The run does not depend on the command-line arguments; every
    bind a run starts is to host [localhost], port [8000]; and every
    request is resolved in [dist] under the directory of the script.
    And the script does listen and serve: when [dist] exists and nothing
    fails, the bind to [localhost], port [8000], is carried out, the
    script is in the serve loop for as long as it is observed, and every
    request that arrives there is answered, with the reply for that
    request resolved in [dist] under the directory of the script, sent
    by the handler class of the script. *)
Theorem fixed_configuration rounds en :
  (forall args, run rounds (with_argv args en) = run rounds en)
  /\ (forall ev host port,
        In ev (trace (snd (run rounds en))) ->
        what ev = Bind host port ->
        host = "localhost" /\ port = 8000%Z)
  /\ (forall x,
        In x (served (snd (run rounds en))) ->
        directory x = parent (script_file en) // "dist")
  /\ (fs_exists en (parent (script_file en) // "dist") = true ->
      quiet_before (startup_ticks + rounds) en ->
      fst (run rounds en) = Pending
      /\ In (mkEvent (Bind "localhost" 8000) None) (trace (snd (run rounds en)))
      /\ forall k rq,
           k < rounds ->
           incoming en (startup_ticks + k) = Some rq ->
           In (mkExchange (parent (script_file en) // "dist") rq
                 (wfile match static_reply en (parent (script_file en) // "dist") rq with
                        | None => new_handler rq
                        | Some r =>
                            send_reply (cls := CORSHTTPRequestHandler) r (new_handler rq)
                        end))
              (served (snd (run rounds en)))).
Proof.
  split; [|split; [|split]].
  - intros args. apply blind_main.
  - intros ev host port Hin Hb. apply alphabet_of_run in Hin. rewrite Hb in Hin.
    cbn [startup_ops fatal_ops app In] in Hin.
    repeat (destruct Hin as [Hin|Hin]; [try discriminate Hin|]); [|contradiction].
    injection Hin as <- <-. split; reflexivity.
  - intros x Hx. pose proof (served_run rounds en) as Hs.
    rewrite Forall_forall in Hs. now destruct (Hs x Hx).
  - intros Hd Hq. rewrite run_pending by assumption. cbn [fst snd].
    split; [reflexivity|]. split.
    + rewrite trace_serving. apply in_or_app. left.
      cbn [succeeded map startup_ops]. do 3 right. left. reflexivity.
    + intros k rq Hk Hi.
      exact (request_is_answered the_server en rounds (listening en) k rq Hk Hi).
Qed.

Lemma fixed_configuration_witness :
  fst (run 3 (Sample.calm true)) = Pending
  /\ In (mkEvent (Bind "localhost" 8000) None) (trace (snd (run 3 (Sample.calm true))))
  /\ In (mkExchange ["home"; "dev"; "daydream"; "dist"] Sample.get_missing
           (wfile (send_reply (cls := CORSHTTPRequestHandler) Sample.not_found
                     (new_handler Sample.get_missing))))
        (served (snd (run 3 (Sample.calm true)))).
Proof.
  destruct (fixed_configuration 3 (Sample.calm true)) as (_ & _ & _ & H).
  destruct H as (Hp & Hb & Ha).
  - reflexivity.
  - intros j Hj. unfold startup_ticks in Hj.
    do 13 (destruct j as [|j]; [reflexivity|]). lia.
  - split; [exact Hp|]. split; [exact Hb|].
    apply (Ha 1 Sample.get_missing); [lia | reflexivity].
Defined.

(** * Further properties of the script *)

(** ** The override on any handler state *)

(** X1. On any handler state, the override of [end_headers] changes
    nothing but the header section: the connection state
    ([close_connection], which [send_header] updates for a [Connection]
    header) and the versions are as before.  For an HTTP/0.9 request it
    does nothing at all; otherwise it empties the header buffer and
    writes, in one piece, what was buffered, then the three lines, then
    the blank line. *)
Theorem override_touches_only_the_header_section self :
  close_connection (CORSHTTPRequestHandler_end_headers self) = close_connection self
  /\ request_version (CORSHTTPRequestHandler_end_headers self) = request_version self
  /\ protocol_version (CORSHTTPRequestHandler_end_headers self) = protocol_version self
  /\ (request_version self = "HTTP/0.9" ->
      CORSHTTPRequestHandler_end_headers self = self)
  /\ (request_version self <> "HTTP/0.9" ->
      _headers_buffer (CORSHTTPRequestHandler_end_headers self) = []
      /\ wfile (CORSHTTPRequestHandler_end_headers self)
         = wfile self
             ++ [String.concat "" (_headers_buffer self ++ cors_lines ++ [CRLF])]).
Proof.
  destruct self as [rv pv buf cc wf].
  unfold CORSHTTPRequestHandler_end_headers, BaseHTTPRequestHandler.send_header,
    BaseHTTPRequestHandler.end_headers, BaseHTTPRequestHandler.flush_headers.
  cbn [request_version protocol_version _headers_buffer close_connection wfile].
  change (String.eqb (lower "Access-Control-Allow-Origin") "connection") with false.
  change (String.eqb (lower "Access-Control-Allow-Methods") "connection") with false.
  change (String.eqb (lower "Access-Control-Allow-Headers") "connection") with false.
  destruct (String.eqb rv "HTTP/0.9") eqn:Hv;
    cbn [request_version protocol_version _headers_buffer close_connection wfile];
    (split; [reflexivity|]); (split; [reflexivity|]); (split; [reflexivity|]); split.
  - reflexivity.
  - intros N. apply String.eqb_eq in Hv. contradiction.
  - intros ->. discriminate Hv.
  - intros _. split; [reflexivity|].
    unfold cors_lines. rewrite <- !app_assoc. reflexivity.
Qed.

Lemma override_touches_only_the_header_section_witness :
  _headers_buffer (CORSHTTPRequestHandler_end_headers Sample2.midway) = []
  /\ wfile (CORSHTTPRequestHandler_end_headers Sample2.midway)
     = wfile Sample2.midway
         ++ [String.concat "" (_headers_buffer Sample2.midway ++ cors_lines ++ [CRLF])].
Proof.
  apply (override_touches_only_the_header_section Sample2.midway).
  intros N. vm_compute in N. discriminate N.
Defined.

(** X2. Two header sections sent one after the other through the same
    handler (an interim reply and the final one, say) each end with the
    three lines, once: nothing of the first section is left in the
    buffer to be sent again with the second. *)
Theorem each_header_section_gets_the_lines_once self hs :
  request_version self <> "HTTP/0.9" ->
  wfile (CORSHTTPRequestHandler_end_headers
           (send_headers hs (CORSHTTPRequestHandler_end_headers self)))
  = wfile self
      ++ [ String.concat "" (_headers_buffer self ++ cors_lines ++ [CRLF]);
           String.concat ""
             (map (fun kv => header_line (fst kv) (snd kv)) hs ++ cors_lines ++ [CRLF]) ].
Proof.
  intros Hv.
  destruct (override_touches_only_the_header_section self)
    as (_ & Hr1 & _ & _ & H1).
  destruct (H1 Hv) as [Hb1 Hw1].
  destruct (send_headers_buffer hs (CORSHTTPRequestHandler_end_headers self))
    as (Hr2 & _ & Hb2 & Hw2); [now rewrite Hr1|].
  fold (send_headers hs (CORSHTTPRequestHandler_end_headers self)) in Hr2, Hb2, Hw2.
  destruct (override_touches_only_the_header_section
              (send_headers hs (CORSHTTPRequestHandler_end_headers self)))
    as (_ & _ & _ & _ & H3).
  destruct H3 as [_ Hw3]; [now rewrite Hr2, Hr1|].
  rewrite Hw3, Hb2, Hb1, Hw2, Hw1, <- app_assoc. reflexivity.
Qed.

Lemma each_header_section_gets_the_lines_once_witness :
  wfile (CORSHTTPRequestHandler_end_headers
           (send_headers [("Content-Length", "0")]
              (CORSHTTPRequestHandler_end_headers Sample2.midway)))
  = wfile Sample2.midway
      ++ [ String.concat "" (_headers_buffer Sample2.midway ++ cors_lines ++ [CRLF]);
           String.concat ""
             (map (fun kv => header_line (fst kv) (snd kv)) [("Content-Length", "0")]
                ++ cors_lines ++ [CRLF]) ].
Proof.
  apply (each_header_section_gets_the_lines_once Sample2.midway).
  intros N. vm_compute in N. discriminate N.
Defined.

(** ** The with block *)

(** Refutes that a list given element by element has an event [done o]
    or [started o] for an operation that is not in it. *)
Ltac no_such_event E :=
  repeat (apply Exists_cons in E;
          destruct E as [E | E];
          [ cbv [done started what raised] in E;
            first [ discriminate E
                  | let E1 := fresh "E" in
                    let E2 := fresh "E" in
                    destruct E as [E1 E2];
                    first [discriminate E1 | discriminate E2] ] |]);
  apply Exists_nil in E; exact E.

(** X3. The server is closed on every way out of the with block: once
    the bind has succeeded, whatever ends the run (an exception during
    the banner, in the serve loop or in the except clause, or the exit
    with status 0), the last thing that happens is the closing of the
    server.  The server is never closed before a bind has been started
    (after a bind that fails, the constructor closes it), and it is not
    closed while the script is still serving. *)
Theorem server_is_closed_on_every_way_out rounds en :
  (fst (run rounds en) <> Pending ->
   List.Exists (done (Bind "localhost" 8000)) (trace (snd (run rounds en))) ->
   last (trace (snd (run rounds en))) (mkEvent Poll None) = mkEvent Close None)
  /\ precedes (started (Bind "localhost" 8000)) (started Close)
       (trace (snd (run rounds en)))
  /\ (fst (run rounds en) = Pending ->
      ~ List.Exists (started Close) (trace (snd (run rounds en)))).
Proof.
  split; [|split].
  - by_ending rounds en; cbn [fst snd]; intros Hn Hb;
      try (now contradiction Hn);
      try (cbn [trace log]; apply last_last);
      enum_ticks;
      cbn [trace succeeded map firstn nth startup_ops fatal_ops app Nat.leb] in *;
      first [reflexivity | exfalso; no_such_event Hb].
  - apply guarded_precedes.
    by_ending rounds en; enum_ticks; normal_trace; unfold dist_dir; order.
  - by_ending rounds en; cbn [fst snd]; intros Hp; try discriminate Hp.
    rewrite trace_serving. intros E. apply Exists_app in E. destruct E as [E|E].
    + cbn [succeeded map startup_ops] in E. no_such_event E.
    + apply Exists_exists in E. destruct E as (ev & Hin & Hc).
      apply repeat_spec in Hin. subst ev. discriminate Hc.
Qed.

Lemma server_is_closed_on_every_way_out_witness :
  last (trace (snd (run 5 (Sample.failing 12 (OSError "Cannot allocate memory")
                             (Sample.calm true)))))
    (mkEvent Poll None)
  = mkEvent Close None.
Proof.
  destruct (server_is_closed_on_every_way_out 5
              (Sample.failing 12 (OSError "Cannot allocate memory") (Sample.calm true)))
    as (H & _ & _).
  apply H.
  - intros N. vm_compute in N. discriminate N.
  - vm_compute. do 3 apply Exists_cons_tl. apply Exists_cons_hd. split; reflexivity.
Defined.

(** ** What is printed, and when *)

(** X4. The banner that announces the address is printed only after the
    bind has succeeded, and the report of the missing build output only
    after the check has been made. *)
Theorem messages_follow_what_they_report rounds en :
  precedes (done (Bind "localhost" 8000))
    (started (Print "🚀 Serving Daydream app at http://localhost:8000"))
    (trace (snd (run rounds en)))
  /\ precedes (done (PathExists (parent (script_file en) // "dist")))
       (started (Print "❌ Error: 'dist' directory not found!"))
       (trace (snd (run rounds en))).
Proof.
  split; apply guarded_precedes;
    by_ending rounds en; enum_ticks; normal_trace; unfold dist_dir; order.
Qed.

Lemma stdout_listening en :
  stdout (listening en)
  = [ "🚀 Serving Daydream app at http://localhost:8000";
      (serving_from ++ render (dist_dir en))%string;
      "🎬 This avoids CORS issues with Livepeer TV player";
      "⚠️  Press Ctrl+C to stop the server";
      "--------------------------------------------------" ].
Proof. reflexivity. Qed.

(** Splits the membership of a line in a list given line by line. *)
Ltac which_line I :=
  repeat match type of I with
         | In _ (_ ++ _) => apply in_app_or in I; destruct I as [I|I]
         | In _ (_ :: _) => destruct I as [I|I]
         | In _ [] => contradiction
         end.

(** The lines of a run that found the build output are those of the
    start, possibly followed by the shutdown notice. *)
Lemma stdout_when_built rounds en line :
  fs_exists en (dist_dir en) = true ->
  In line (stdout (snd (run rounds en))) ->
  In line (stdout (listening en) ++ [stopped_line]).
Proof.
  intros Hd. by_ending rounds en; try congruence; cbn [snd]; intros I.
  - enum_ticks; cbv in I; contradiction.
  - enum_ticks; apply in_or_app; left; rewrite stdout_listening;
      cbn [stdout flat_map trace succeeded map firstn nth startup_ops app
           what raised Nat.leb] in I;
      which_line I; subst line; cbn [In]; tauto.
  - rewrite stdout_after_rounds in I. apply in_or_app. now left.
  - rewrite stdout_log, app_nil_r, stdout_broken in I. apply in_or_app. now left.
  - rewrite stdout_log, app_nil_r in I. change (stdout (tick ?x)) with (stdout x) in I.
    rewrite stdout_log, stdout_broken in I. exact I.
  - rewrite stdout_log, app_nil_r in I. change (stdout (tick ?x)) with (stdout x) in I.
    rewrite stdout_log, app_nil_r, stdout_broken in I. apply in_or_app. now left.
Qed.

(** X5. What the script prints is true.  The report of the missing
    build output is printed only if [dist] does not exist; and the line
    that names the served directory names the directory in which every
    request of the run is resolved. *)
Theorem printed_lines_are_true rounds en line :
  In line (stdout (snd (run rounds en))) ->
  (line = "❌ Error: 'dist' directory not found!" ->
   fs_exists en (parent (script_file en) // "dist") = false)
  /\ (String.prefix "📁 Serving from: " line = true ->
      forall x, In x (served (snd (run rounds en))) ->
                line = ("📁 Serving from: " ++ render (directory x))%string).
Proof.
  intros I. change (parent (script_file en) // "dist") with (dist_dir en).
  destruct (fs_exists en (dist_dir en)) eqn:Hd.
  - apply (stdout_when_built rounds en line Hd) in I.
    rewrite stdout_listening in I. split.
    + intros ->. exfalso. which_line I; discriminate I.
    + intros Hp x Hx. pose proof (served_run rounds en) as Hs.
      rewrite Forall_forall in Hs. destruct (Hs x Hx) as [-> _].
      which_line I; subst line; try (cbv in Hp; discriminate Hp). reflexivity.
  - split; [reflexivity|]. intros _ x Hx. exfalso. revert Hx.
    by_ending rounds en; try congruence; cbn [snd served]; contradiction.
Qed.

Lemma printed_lines_are_true_witness :
  "📁 Serving from: /home/dev/daydream/dist"
  = ("📁 Serving from: " ++ render (directory Sample.first_exchange))%string.
Proof.
  destruct (printed_lines_are_true 3 (Sample.calm true)
              "📁 Serving from: /home/dev/daydream/dist") as [_ H].
  - vm_compute. right. left. reflexivity.
  - apply H.
    + reflexivity.
    + vm_compute. left. reflexivity.
Defined.

(** ** Exit statuses *)





(** ** What the script looks at *)

(** X8. The only path whose existence the script ever checks is [dist]
    under the directory of the script, and the only directories it ever
    changes into are the directory of the script and that [dist]. *)
Theorem only_dist_is_looked_at rounds en ev p :
  In ev (trace (snd (run rounds en))) ->
  (what ev = PathExists p -> p = parent (script_file en) // "dist")
  /\ (what ev = Chdir p ->
      p = parent (script_file en) \/ p = parent (script_file en) // "dist").
Proof.
  intros Hin. apply alphabet_of_run in Hin.
  cbn [startup_ops fatal_ops app In] in Hin. unfold dist_dir in Hin.
  split; intros E; rewrite E in Hin;
    repeat (destruct Hin as [Hin|Hin]; [try discriminate Hin|]);
    try contradiction; injection Hin as <-; auto.
Qed.

Lemma only_dist_is_looked_at_witness :
  ["home"; "dev"; "daydream"; "dist"]
  = parent (script_file (Sample.calm false)) // "dist".
Proof.
  destruct (only_dist_is_looked_at 0 (Sample.calm false)
              (mkEvent (PathExists ["home"; "dev"; "daydream"; "dist"]) None)
              ["home"; "dev"; "daydream"; "dist"]) as [H _].
  - vm_compute. right. left. reflexivity.
  - apply H. reflexivity.
Defined.

(** ** Where the script is started from *)

Section EnvInvariant.

Context {A B : Type}.

Lemma invariant_ret (a : A) : env_invariant (ret a).
Proof. intros en1 en2 w _. reflexivity. Qed.

Lemma invariant_raise (e : exn) : env_invariant (@raise A e).
Proof. intros en1 en2 w _. reflexivity. Qed.

Lemma invariant_bind (m : M A) (k : A -> M B) :
  env_invariant m -> (forall a, env_invariant (k a)) -> env_invariant (bind m k).
Proof.
  intros Hm Hk en1 en2 w Ha. unfold bind. rewrite (Hm en1 en2 w Ha).
  destruct (m en2 w) as [[a|e|] w']; [now apply Hk | reflexivity | reflexivity].
Qed.

Lemma invariant_syscall (o : op) eff (val : env -> world -> A) :
  (forall en1 en2 w, env_agree en1 en2 -> eff en1 w = eff en2 w) ->
  (forall en1 en2 w, env_agree en1 en2 -> val en1 w = val en2 w) ->
  env_invariant (syscall o eff val).
Proof.
  intros He Hv en1 en2 w Ha. unfold syscall.
  destruct Ha as (Hs & Hf & Hx & Hi & Hr). rewrite Hx.
  assert (Ha : env_agree en1 en2) by (repeat split; assumption).
  now rewrite (He en1 en2 w Ha), (Hv en1 en2 w Ha).
Qed.

Lemma invariant_try_except (body : M A) catches (handler : exn -> M A) :
  env_invariant body -> (forall e, env_invariant (handler e)) ->
  env_invariant (try_except body catches handler).
Proof.
  intros Hb Hh en1 en2 w Ha. unfold try_except. rewrite (Hb en1 en2 w Ha).
  destruct (body en2 w) as [[a|e|] w']; try reflexivity.
  destruct (catches e); [now apply Hh | reflexivity].
Qed.

Lemma invariant_with_server (ctor : M TCPServer) (body : TCPServer -> M A) :
  env_invariant ctor -> (forall httpd, env_invariant (body httpd)) ->
  env_invariant (with_server ctor body).
Proof.
  intros Hc Hb en1 en2 w Ha. unfold with_server, bind. rewrite (Hc en1 en2 w Ha).
  destruct (ctor en2 w) as [[httpd|e|] w']; try reflexivity.
  now rewrite (Hb httpd en1 en2 w' Ha).
Qed.

End EnvInvariant.

Lemma invariant_serve_forever httpd rounds : env_invariant (serve_forever httpd rounds).
Proof.
  induction rounds as [|n IH]; [intros en1 en2 w _; reflexivity|].
  cbn [serve_forever]. apply invariant_bind; [|intros _; exact IH].
  apply invariant_syscall; [|reflexivity].
  intros en1 en2 w (_ & _ & _ & Hi & Hr). unfold answer. rewrite Hi.
  destruct (incoming en2 (clock w)); [|reflexivity]. now rewrite Hr.
Qed.

Ltac invariant_step :=
  apply invariant_bind;
  [apply invariant_syscall; intros ? ? ? (? & ? & ? & ? & ?); auto | intros ?].

(** [main] reads the environment only through the location of the
    script, the file system, the exceptions and the traffic. *)
Lemma invariant_main rounds : env_invariant (main rounds).
Proof.
  unfold main.
  apply invariant_bind.
  { intros en1 en2 w (Hs & _). unfold Path_file. now rewrite Hs. }
  intros file. invariant_step. invariant_step.
  apply invariant_bind.
  { match goal with found : bool |- _ => destruct found end;
      cbn [negb]; [apply invariant_ret|].
    invariant_step. invariant_step. apply invariant_raise. }
  intros _. invariant_step.
  apply invariant_with_server;
    [intros en1 en2 w (_ & _ & Hx & _); unfold TCPServer_init, syscall; now rewrite Hx
    | intros httpd].
  do 6 invariant_step.
  apply invariant_try_except; [apply invariant_serve_forever | intros _].
  invariant_step. apply invariant_raise.
Qed.

(** X9. The script behaves alike wherever it is started from and
    whatever its arguments: in two environments that agree on the
    location of the script, the file system, the exceptions and the
    traffic, the runs end the same way, with the same trace and the same
    requests answered with the same bytes; and unless the first change
    of directory fails they end in the same working directory too. *)
Theorem same_run_from_any_directory rounds en1 en2 :
  env_agree en1 en2 ->
  fst (run rounds en1) = fst (run rounds en2)
  /\ trace (snd (run rounds en1)) = trace (snd (run rounds en2))
  /\ served (snd (run rounds en1)) = served (snd (run rounds en2))
  /\ (fault en1 0 = None -> run rounds en1 = run rounds en2).
Proof.
  intros Ha.
  assert (Hm : run rounds en2 = main rounds en1 (boot en2)).
  { unfold run. symmetry. now apply invariant_main. }
  destruct (fault en1 0) as [e|] eqn:Hf.
  - assert (Hf2 : fault en2 0 = Some e).
    { destruct Ha as (_ & _ & Hx & _). now rewrite <- Hx. }
    assert (Hq : forall en, quiet_before 0 en) by (intros en j Hj; lia).
    rewrite (run_early_fault rounds en1 0 e), (run_early_fault rounds en2 0 e)
      by (auto with arith).
    destruct Ha as (Hs & _). cbn [fst snd trace served firstn nth startup_ops succeeded map app].
    rewrite Hs. repeat split. intros N. discriminate N.
  - assert (E : run rounds en1 = run rounds en2).
    { rewrite Hm. unfold run, main, bind, Path_file, os_chdir, syscall.
      cbn [boot clock]. rewrite Hf. reflexivity. }
    rewrite E. repeat split.
Qed.

Lemma same_run_from_any_directory_witness :
  run 3 (Sample.calm true) = run 3 Sample2.elsewhere.
Proof.
  destruct (same_run_from_any_directory 3 (Sample.calm true) Sample2.elsewhere)
    as (_ & _ & _ & H).
  - repeat split; reflexivity.
  - apply H. reflexivity.
Defined.
